(** * ORIGIN SDK: the verification client, embedded and checked

    The client of [src/origin.ts] reads an on-chain agent registry through a
    read-only gateway, assembles agent records, derives a trust level and
    keeps results in a time-limited cache.  Two revisions of the client are
    present in the sources: the one reading the V2 registry (explicit
    [isVerified] flag, [getLineage], [getLicenseCount] and per-index
    [getLicense]) and the one reading the V1 registry (one [getAgent] struct
    carrying [humanPrincipal], a batched [getLicenses], a separate
    [ownerOf]).  Both are embedded; what they share is written once, in a
    section that abstracts over the record type and the assembler.

    Modelling conventions.
    - A [uint256] decoded by the gateway is an [N]; a JavaScript [number]
      holding an identifier, a count or a time in milliseconds is a [Z].
      [Number(bigint)] is taken to be exact, which it is below 2^53.
    - The gateway is an oracle: the answer to a call may depend on all the
      calls issued before it, so transient failures and a changing registry
      are covered.  Every call made is appended to a log.
    - An [async] method is a state transformer that either returns a value
      or throws; the state carries the client object (with its cache), the
      clock read by [Date.now()] and the log of calls. *)

From stdpp Require Import gmap strings pretty list.
From Stdlib Require Import Ascii String ZArith Lia.

(** ** JavaScript values and helpers *)

(** What a rejected promise or a [throw] carries: an [Error] with its
    message, or any other value. *)
Inductive Thrown : Type :=
  | ErrorObj (message : string)
  | NonError.

(** The outcome of one remote read. *)
Inductive Result (T : Type) : Type :=
  | Ok (v : T)
  | Fail (e : Thrown).
Arguments Ok {T} v.
Arguments Fail {T} e.

(** [String.prototype.toLowerCase], on the ASCII letters that hexadecimal
    addresses are made of. *)
Definition lower_ascii (c : ascii) : ascii :=
  let n := N_of_ascii c in
  if ((65 <=? n) && (n <=? 90))%N then ascii_of_N (n + 32) else c.

Fixpoint toLowerCase (s : string) : string :=
  match s with
  | EmptyString => EmptyString
  | String c r => String (lower_ascii c) (toLowerCase r)
  end.

(** [String.prototype.includes]. *)
Fixpoint includes (s needle : string) : bool :=
  String.prefix needle s ||
  match s with
  | EmptyString => false
  | String _ r => includes r needle
  end.

(** What running a method yields: a value, or a thrown value. *)
Inductive Outcome (A : Type) : Type :=
  | Return (a : A)
  | Throw (e : Thrown).
Arguments Return {A} a.
Arguments Throw {A} e.

(** ** Types shared by both revisions ([types.ts]) *)

(** [type TrustLevel = 0 | 1 | 2]. *)
Inductive TrustLevel : Type := Level0 | Level1 | Level2.

Definition TrustLevel_value (t : TrustLevel) : Z :=
  match t with Level0 => 0 | Level1 => 1 | Level2 => 2 end.

(** [ProtocolStats]; its first field is named [totalRegistered] in one
    revision and [totalAgents] in the other. *)
Record ProtocolStats : Type := {
  totalRegistered : Z;
  totalClaims : Z;
  totalClamsSupply : string;
}.

(** [ClamsBalance].  The [amount] field, [Number(formatted)], is a
    floating-point approximation of [formatted]; it is computed without
    any remote read and cannot throw, and is left out. *)
Record ClamsBalance : Type := {
  raw : N;
  formatted : string;
}.

Record OriginConfig : Type := {
  config_rpcUrl : option string;
  config_cacheTtl : option Z;
}.

(** ** The remote read gateway ([contracts.ts]) *)

(** The struct returned by the V1 registry's [getAgent]. *)
Record AgentRecord : Type := {
  rec_name : string;
  rec_agentType : string;
  rec_platform : string;
  rec_creator : string;
  rec_parentAgentId : N;
  rec_humanPrincipal : string;
  rec_lineageDepth : N;
  rec_birthTimestamp : N;
  rec_publicKeyHash : string;
  rec_active : bool;
}.

(** One element of the array returned by the V1 registry's [getLicenses]. *)
Record LicenseTuple : Type := {
  tup_licenseType : string;
  tup_licenseNumber : string;
  tup_holder : string;
  tup_jurisdiction : string;
  tup_active : bool;
}.

(** A read-only call: the contract, the function name and the arguments
    handed to [readContract]. *)
Inductive Call : Type :=
  (* registry, both ABIs *)
  | Registry_balanceOf (owner : string)
  | Registry_ownerOf (tokenId : Z)
  | Registry_tokenURI (tokenId : Z)
  (* registry, V2 ABI *)
  | Registry_getAgent (tokenId : Z)
  | Registry_isVerified (tokenId : Z)
  | Registry_getLineage (tokenId : Z)
  | Registry_getLicenseCount (tokenId : Z)
  | Registry_getLicense (tokenId : Z) (index : Z)
  | Registry_totalRegistered
  (* registry, V1 ABI *)
  | RegistryV1_getAgent (agentId : Z)
  | RegistryV1_getLicenses (agentId : Z)
  | RegistryV1_totalAgents
  (* faucet *)
  | Faucet_hasClaimed (account : string)
  | Faucet_totalClaims
  (* CLAMS token *)
  | Clams_balanceOf (account : string)
  | Clams_totalSupply.

(** The type the ABI gives to the decoded result of a call. *)
Definition Returns (c : Call) : Type :=
  match c with
  | Registry_balanceOf _ => N
  | Registry_ownerOf _ => string
  | Registry_tokenURI _ => string
  | Registry_getAgent _ => (string * string * string * N)%type
  | Registry_isVerified _ => bool
  | Registry_getLineage _ => (N * N)%type
  | Registry_getLicenseCount _ => N
  | Registry_getLicense _ _ => (string * string * N)%type
  | Registry_totalRegistered => N
  | RegistryV1_getAgent _ => AgentRecord
  | RegistryV1_getLicenses _ => list LicenseTuple
  | RegistryV1_totalAgents => N
  | Faucet_hasClaimed _ => bool
  | Faucet_totalClaims => N
  | Clams_balanceOf _ => N
  | Clams_totalSupply => N
  end.

(** The gateway ([client.readContract]): given the calls made so far and
    a call, its result or its failure, and the time the call takes. *)
Record Remote : Type := {
  respond : list Call → ∀ c : Call, Result (Returns c);
  latency : list Call → Call → Z;
}.

(** ** The client object, its cache and the method monad *)

Section Client.

Context {Agent : Type}.

(** The cache is a [Map<string, CacheEntry<unknown>>]; the values stored
    are agent records (under ["agent:<id>"]) and statistics (under
    ["stats"]). *)
Inductive CacheVal : Type :=
  | VAgent (a : Agent)
  | VStats (p : ProtocolStats).

Record CacheEntry : Type := {
  data : CacheVal;
  expiresAt : Z;
}.

(** [class Origin]. *)
Record Origin : Type := {
  client : Remote;
  cache : gmap string CacheEntry;
  cacheTtl : Z;
}.

(** The client together with what surrounds it. *)
Record State : Type := {
  this : Origin;
  now : Z;
  log : list Call;
}.

Definition M (A : Type) : Type := State → Outcome A * State.

Definition ret {A} (a : A) : M A := λ s, (Return a, s).

Definition bind {A B} (m : M A) (k : A → M B) : M B :=
  λ s, match m s with
       | (Return a, s') => k a s'
       | (Throw e, s') => (Throw e, s')
       end.

(** [try { m } catch (e) { h e }], also [m.catch(h)]. *)
Definition try_catch {A} (m : M A) (h : Thrown → M A) : M A :=
  λ s, match m s with
       | (Return a, s') => (Return a, s')
       | (Throw e, s') => h e s'
       end.

(** [Promise.all([m1, m2])]: both reads are issued, in this order,
    whatever becomes of the first; the join rejects when one of them
    does.  (Which rejection wins when both do is immaterial below.) *)
Definition Promise_all {A B} (m1 : M A) (m2 : M B) : M (A * B) :=
  λ s, let '(o1, s1) := m1 s in
       let '(o2, s2) := m2 s1 in
       (match o1, o2 with
        | Return a, Return b => Return (a, b)
        | Throw e, _ => Throw e
        | Return _, Throw e => Throw e
        end, s2).

(** [new Origin(config)].  The transport built from [config?.rpcUrl] is
    the gateway; [cacheTtl] is [config?.cacheTtl ?? 30_000]. *)
Definition constructor (createPublicClient : option string → Remote)
    (config : option OriginConfig) : Origin :=
  {| client := createPublicClient (config ≫= config_rpcUrl);
     cache := ∅;
     cacheTtl := default 30000%Z (config ≫= config_cacheTtl) |}.

Definition set_cache (f : gmap string CacheEntry → gmap string CacheEntry)
    (s : State) : State :=
  {| this := {| client := client (this s);
                cache := f (cache (this s));
                cacheTtl := cacheTtl (this s) |};
     now := now s;
     log := log s |}.

(** [private async readContract(address, abi, functionName, args)]. *)
Definition readContract (c : Call) : M (Returns c) :=
  λ s, let rpc := client (this s) in
       (match respond rpc (log s) c with
        | Ok v => Return v
        | Fail e => Throw e
        end,
        {| this := this s;
           now := (now s + latency rpc (log s) c)%Z;
           log := log s ++ [c] |}).

(** What [getCache<Agent>] hands back.  Only [getAgent] stores under
    ["agent:<id>"], and it stores agent records. *)
Definition asAgent (v : CacheVal) : option Agent :=
  match v with VAgent a => Some a | VStats _ => None end.

(** [private getCache<T>(key)]. *)
Definition getCache (key : string) : M (option CacheVal) :=
  λ s, match cache (this s) !! key with
       | None => (Return None, s)
       | Some entry =>
           if (now s >? expiresAt entry)%Z
           then (Return None, set_cache (delete key) s)
           else (Return (Some (data entry)), s)
       end.

(** [private setCache<T>(key, data)]. *)
Definition setCache (key : string) (d : CacheVal) : M unit :=
  λ s, (Return tt,
        set_cache (insert key {| data := d;
                                 expiresAt := (now s + cacheTtl (this s))%Z |}) s).

(** [clearCache()]. *)
Definition clearCache : M unit :=
  λ s, (Return tt, set_cache (λ _, ∅) s).

End Client.

Arguments CacheVal : clear implicits.
Arguments CacheEntry : clear implicits.
Arguments Origin : clear implicits.
Arguments State : clear implicits.
Arguments M : clear implicits.

Notation "'let*' x ':=' m 'in' k" := (bind m (λ x, k))
  (at level 10, x binder, m at level 100, k at level 200).

(** ** Formatting base units *)

(** [display.padStart(n, '0')]. *)
Definition padStart0 (n : nat) (display : string) : string :=
  String.concat "" (replicate (n - String.length display) "0"%string) +:+ display.

(** [fraction.replace(/(0+)$/, '')]. *)
Fixpoint dropTrailingZeros (s : string) : string :=
  match s with
  | EmptyString => EmptyString
  | String c r =>
      match dropTrailingZeros r with
      | EmptyString => if Ascii.eqb c "0" then EmptyString
                       else String c EmptyString
      | r' => String c r'
      end
  end.

(** Modelled from the spec: [formatUnits] belongs to the [viem] library,
    which is not among the sources.  It renders an amount of base units as
    a fixed-point decimal string with [decimals] fractional digits, the
    trailing zeros of the fraction and, when nothing is left of it, the
    decimal point being elided; an empty integer part reads ["0"]. *)
Definition formatUnits (value : N) (decimals : nat) : string :=
  let display := padStart0 decimals (pretty value) in
  let len := String.length display in
  let integer := String.substring 0 (len - decimals) display in
  let fraction :=
    dropTrailingZeros (String.substring (len - decimals) decimals display) in
  (if String.eqb integer "" then "0" else integer) +:+
  (if String.eqb fraction "" then "" else "." +:+ fraction).

(** ** The operations both revisions share ([origin.ts]) *)

Section Facade.

Context {Agent : Type}.

(** [agent.trustLevel]. *)
Variable agent_trustLevel : Agent → TrustLevel.
(** [this.getAgent(tokenId)], the record assembler of the revision. *)
Variable getAgent : Z → M Agent (option Agent).
(** [this.getTotalRegistered()], named [getTotalAgents] in the V1 client. *)
Variable getTotalRegistered : M Agent Z.

Record VerificationResult : Type := {
  verified : bool;
  trustLevel : TrustLevel;
  agent : option Agent;
  error : option string;
}.

Definition notVerified (msg : string) : VerificationResult :=
  {| verified := false; trustLevel := Level0; agent := None;
     error := Some msg |}.

(** [error instanceof Error ? error.message : "Verification failed"]. *)
Definition errorMessage (e : Thrown) : string :=
  match e with
  | ErrorObj message => message
  | NonError => "Verification failed"
  end.

(** The body of the [for] loop of [findAgentByOwner], for [id] running
    from [n] down to 1.  The ownership read and the comparison are inside
    the [try]; [return this.getAgent(id)] hands over to the assembler. *)
Fixpoint scanOwners (normalizedAddress : string) (n : nat)
    : M Agent (option Agent) :=
  match n with
  | O => ret None
  | S n' =>
      let id := Z.of_nat n in
      let* found :=
        try_catch
          (let* owner := readContract (Registry_ownerOf id) in
           ret (String.eqb (toLowerCase owner) normalizedAddress))
          (λ _, ret false) in
      if found then getAgent id else scanOwners normalizedAddress n'
  end.

Definition findAgentByOwner (address : string) : M Agent (option Agent) :=
  let* total := getTotalRegistered in
  let normalizedAddress := toLowerCase address in
  scanOwners normalizedAddress (Z.to_nat total).

Definition verifyAgent (address : string) : M Agent VerificationResult :=
  try_catch
    (let* balance := readContract (Registry_balanceOf address) in
     if (balance =? 0)%N
     then ret (notVerified "No Birth Certificate found for this address")
     else
       let* found := findAgentByOwner address in
       match found with
       | None =>
           ret (notVerified
                  "Birth Certificate exists but agent data not found")
       | Some a =>
           ret {| verified := true; trustLevel := agent_trustLevel a;
                  agent := Some a; error := None |}
       end)
    (λ e, ret (notVerified (errorMessage e))).

Definition verifyAgentById (tokenId : Z) : M Agent VerificationResult :=
  try_catch
    (let* found := getAgent tokenId in
     match found with
     | None =>
         ret (notVerified ("No agent found with ID " +:+ pretty tokenId))
     | Some a =>
         ret {| verified := true; trustLevel := agent_trustLevel a;
                agent := Some a; error := None |}
     end)
    (λ e, ret (notVerified (errorMessage e))).

Definition isRegistered (address : string) : M Agent bool :=
  try_catch
    (let* balance := readContract (Registry_balanceOf address) in
     ret (0 <? balance)%N)
    (λ _, ret false).

Definition hasClaimed (address : string) : M Agent bool :=
  try_catch (readContract (Faucet_hasClaimed address)) (λ _, ret false).

(** What [getCache<ProtocolStats>] hands back.  Only [getStats] stores
    under ["stats"], and it stores statistics. *)
Definition asStats (v : CacheVal Agent) : option ProtocolStats :=
  match v with VStats p => Some p | VAgent _ => None end.

Definition getStats : M Agent ProtocolStats :=
  let cacheKey := "stats"%string in
  let* cached := getCache cacheKey in
  match cached ≫= asStats with
  | Some p => ret p
  | None =>
      let* '(total, (claims, supply)) :=
        Promise_all getTotalRegistered
          (Promise_all
             (try_catch
                (let* r := readContract Faucet_totalClaims in ret (Z.of_N r))
                (λ _, ret 0%Z))
             (try_catch
                (let* r := readContract Clams_totalSupply in
                 ret (formatUnits r 18))
                (λ _, ret "0"%string))) in
      let stats := {| totalRegistered := total; totalClaims := claims;
                      totalClamsSupply := supply |} in
      let* _ := setCache cacheKey (VStats stats) in
      ret stats
  end.

Definition getClamsBalance (address : string) : M Agent ClamsBalance :=
  let* raw := readContract (Clams_balanceOf address) in
  let formatted := formatUnits raw 18 in
  ret {| raw := raw; formatted := formatted |}.

(** *** A caller

    What a program using one client does with it: any sequence of public
    operations, with time passing in between.  The results are dropped;
    what matters is the state the client is left in. *)
Inductive Command : Type :=
  | DoVerifyAgent (address : string)
  | DoVerifyAgentById (tokenId : Z)
  | DoIsRegistered (address : string)
  | DoHasClaimed (address : string)
  | DoGetAgent (tokenId : Z)
  | DoFindAgentByOwner (address : string)
  | DoGetStats
  | DoGetClamsBalance (address : string)
  | DoClearCache
  | Wait (ms : Z).

Definition exec (c : Command) (s : State Agent) : State Agent :=
  match c with
  | DoVerifyAgent address => snd (verifyAgent address s)
  | DoVerifyAgentById tokenId => snd (verifyAgentById tokenId s)
  | DoIsRegistered address => snd (isRegistered address s)
  | DoHasClaimed address => snd (hasClaimed address s)
  | DoGetAgent tokenId => snd (getAgent tokenId s)
  | DoFindAgentByOwner address => snd (findAgentByOwner address s)
  | DoGetStats => snd (getStats s)
  | DoGetClamsBalance address => snd (getClamsBalance address s)
  | DoClearCache => snd (clearCache s)
  | Wait ms => {| this := this s; now := (now s + ms)%Z; log := log s |}
  end.

Definition session (cs : list Command) (s : State Agent) : State Agent :=
  fold_left (λ s c, exec c s) cs s.

End Facade.

Arguments VerificationResult : clear implicits.

(** ** The client of the V2 registry ([src/origin.ts]) *)

Module V2.

Record License : Type := {
  license_type : string;
  license_id : string;
  issuedAt : Z;
}.

Record Lineage : Type := {
  parentId : Z;
  depth : Z;
}.

Record Agent : Type := {
  id : Z;
  name : string;
  agentType : string;
  owner : string;
  birthBlock : Z;
  isVerified : bool;
  trustLevel : TrustLevel;
  licenses : list License;
  lineage : Lineage;
  tokenURI : string;
}.

(** The license loop of [getAgent]: [n] iterations are left, [i] is the
    loop counter; a failed read leaves the loop ([break]). *)
Fixpoint fetchLicenses (tokenId : Z) (n : nat) (i : Z)
    (licenses : list License) : M Agent (list License) :=
  match n with
  | O => ret licenses
  | S n' =>
      let* step :=
        try_catch
          (let* lic := readContract (Registry_getLicense tokenId i) in
           let '(lic0, lic1, lic2) := lic in
           ret (Some {| license_type := lic0; license_id := lic1;
                        issuedAt := Z.of_N lic2 |}))
          (λ _, ret None) in
      match step with
      | Some l => fetchLicenses tokenId n' (i + 1)%Z (licenses ++ [l])
      | None => ret licenses
      end
  end.

(** [// Determine trust level]. *)
Definition determineTrustLevel (verified : bool) (licenses : list License)
    : TrustLevel :=
  if verified && (0 <? List.length licenses)%nat then Level2
  else if verified then Level1
  else Level0.

Definition cacheKey (tokenId : Z) : string := "agent:" +:+ pretty tokenId.

(** The [Promise.all] of [getAgent]: the record, then the four reads that
    carry a [.catch] default. *)
Definition fetchAll (tokenId : Z)
    : M Agent ((string * string * string * N) * (bool * ((N * N) * (N * string)))) :=
  Promise_all (readContract (Registry_getAgent tokenId))
    (Promise_all
       (try_catch (readContract (Registry_isVerified tokenId))
          (λ _, ret false))
       (Promise_all
          (try_catch (readContract (Registry_getLineage tokenId))
             (λ _, ret (0%N, 0%N)))
          (Promise_all
             (try_catch (readContract (Registry_getLicenseCount tokenId))
                (λ _, ret 0%N))
             (try_catch (readContract (Registry_tokenURI tokenId))
                (λ _, ret ""%string))))).

Definition getAgent (tokenId : Z) : M Agent (option Agent) :=
  let cacheKey := cacheKey tokenId in
  let* cached := getCache cacheKey in
  match cached ≫= asAgent with
  | Some a => ret (Some a)
  | None =>
      try_catch
        (let* '(agentData, (verified, (lineage, (licenseCount, tokenURI)))) :=
           fetchAll tokenId in
         let '(name, agentType, owner, birthBlock) := agentData in
         let count := Z.of_N licenseCount in
         let* licenses := fetchLicenses tokenId (Z.to_nat count) 0 [] in
         let trustLevel := determineTrustLevel verified licenses in
         let agent :=
           {| id := tokenId;
              name := name;
              agentType := agentType;
              owner := owner;
              birthBlock := Z.of_N birthBlock;
              isVerified := verified;
              trustLevel := trustLevel;
              licenses := licenses;
              lineage := {| parentId := Z.of_N (fst lineage);
                            depth := Z.of_N (snd lineage) |};
              tokenURI := tokenURI |} in
         let* _ := setCache cacheKey (VAgent agent) in
         ret (Some agent))
        (λ _, ret None)
  end.

Definition getTotalRegistered : M Agent Z :=
  let* result := readContract Registry_totalRegistered in
  ret (Z.of_N result).

Definition findAgentByOwner := findAgentByOwner getAgent getTotalRegistered.
Definition verifyAgent := verifyAgent trustLevel getAgent getTotalRegistered.
Definition verifyAgentById := verifyAgentById trustLevel getAgent.
Definition getStats := getStats (Agent := Agent) getTotalRegistered.
Definition exec := exec trustLevel getAgent getTotalRegistered.
Definition session := session trustLevel getAgent getTotalRegistered.

End V2.

(** ** The client of the V1 registry (the other revision of [origin.ts]) *)

Module V1.

Record License : Type := {
  licenseType : string;
  licenseNumber : string;
  holder : string;
  jurisdiction : string;
  active : bool;
}.

Record Agent : Type := {
  id : Z;
  name : string;
  agentType : string;
  platform : string;
  owner : string;
  creator : string;
  parentAgentId : Z;
  humanPrincipal : string;
  lineageDepth : Z;
  birthTimestamp : Z;
  agent_active : bool;
  trustLevel : TrustLevel;
  licenses : list License;
  tokenURI : string;
}.

Definition zeroAddress : string :=
  "0x0000000000000000000000000000000000000000".

(** [// Compute trust level: 0 = base, 1 = has human principal,
    2 = has active licenses]. *)
Definition computeTrustLevel (humanPrincipal : string)
    (licenses : list LicenseTuple) : TrustLevel :=
  let hasHumanPrincipal := negb (String.eqb humanPrincipal zeroAddress) in
  let activeLicenses := List.filter tup_active licenses in
  if (0 <? List.length activeLicenses)%nat then Level2
  else if hasHumanPrincipal then Level1
  else Level0.

Definition copyLicense (l : LicenseTuple) : License :=
  {| licenseType := tup_licenseType l;
     licenseNumber := tup_licenseNumber l;
     holder := tup_holder l;
     jurisdiction := tup_jurisdiction l;
     active := tup_active l |}.

Definition cacheKey (tokenId : Z) : string := "agent:" +:+ pretty tokenId.

(** [// Parallel fetch: agent record, licenses, owner, tokenURI]; only
    the license read carries a [.catch] default. *)
Definition fetchAll (tokenId : Z)
    : M Agent (AgentRecord * (list LicenseTuple * (string * string))) :=
  Promise_all (readContract (RegistryV1_getAgent tokenId))
    (Promise_all
       (try_catch (readContract (RegistryV1_getLicenses tokenId))
          (λ _, ret []))
       (Promise_all
          (readContract (Registry_ownerOf tokenId))
          (readContract (Registry_tokenURI tokenId)))).

Definition getAgent (tokenId : Z) : M Agent (option Agent) :=
  let cacheKey := cacheKey tokenId in
  let* cached := getCache cacheKey in
  match cached ≫= asAgent with
  | Some a => ret (Some a)
  | None =>
      try_catch
        (let* '(record, (licenses, (owner, tokenURI))) := fetchAll tokenId in
         let trustLevel :=
           computeTrustLevel (rec_humanPrincipal record) licenses in
         let agent :=
           {| id := tokenId;
              name := rec_name record;
              agentType := rec_agentType record;
              platform := rec_platform record;
              owner := owner;
              creator := rec_creator record;
              parentAgentId := Z.of_N (rec_parentAgentId record);
              humanPrincipal := rec_humanPrincipal record;
              lineageDepth := Z.of_N (rec_lineageDepth record);
              birthTimestamp := Z.of_N (rec_birthTimestamp record);
              agent_active := rec_active record;
              trustLevel := trustLevel;
              licenses := List.map copyLicense licenses;
              tokenURI := tokenURI |} in
         let* _ := setCache cacheKey (VAgent agent) in
         ret (Some agent))
        (λ _, ret None)
  end.

Definition getTotalAgents : M Agent Z :=
  let* result := readContract RegistryV1_totalAgents in
  ret (Z.of_N result).

Definition findAgentByOwner := findAgentByOwner getAgent getTotalAgents.
Definition verifyAgent := verifyAgent trustLevel getAgent getTotalAgents.
Definition verifyAgentById := verifyAgentById trustLevel getAgent.
Definition getStats := getStats (Agent := Agent) getTotalAgents.
Definition exec := exec trustLevel getAgent getTotalAgents.
Definition session := session trustLevel getAgent getTotalAgents.

End V1.


(** ** The standalone functions ([verify.ts]) *)

Module Verify.

Section Standalone.

Context {Agent : Type}.

(** What the module imports: the transport factory behind [new Origin()]
    and the methods of the class. *)
Variable createPublicClient : option string → Remote.
Variable agent_trustLevel : Agent → TrustLevel.
Variable getAgent : Z → M Agent (option Agent).
Variable getTotalRegistered : M Agent Z.

(** The module variable [_defaultInstance], with the clock and the log of
    calls of the program that loaded the module. *)
Record Program : Type := {
  _defaultInstance : option (Origin Agent);
  clock : Z;
  calls : list Call;
}.

(** [function getDefault()]. *)
Definition getDefault (p : Program) : Origin Agent * Program :=
  match _defaultInstance p with
  | Some instance => (instance, p)
  | None =>
      let instance := constructor createPublicClient None in
      (instance,
       {| _defaultInstance := Some instance;
          clock := clock p; calls := calls p |})
  end.

(** [getDefault().method(...)]: the method runs on the shared instance,
    and what it does to the instance stays in [_defaultInstance]. *)
Definition onDefault {A} (method : M Agent A) (p : Program)
    : Outcome A * Program :=
  let '(instance, p1) := getDefault p in
  let '(result, s') :=
    method {| this := instance; now := clock p1; log := calls p1 |} in
  (result,
   {| _defaultInstance := Some (this s'); clock := now s'; calls := log s' |}).

Definition verifyAgent (address : string) :=
  onDefault (verifyAgent agent_trustLevel getAgent getTotalRegistered address).

Definition verifyAgentById (tokenId : Z) :=
  onDefault (verifyAgentById agent_trustLevel getAgent tokenId).

Definition isRegistered (address : string) :=
  onDefault (isRegistered (Agent := Agent) address).

Definition hasClaimed (address : string) :=
  onDefault (hasClaimed (Agent := Agent) address).

End Standalone.

Arguments Program : clear implicits.

End Verify.

(** * Vocabulary of the statements *)

Section Vocabulary.

Context {Agent : Type}.
Implicit Types (s : State Agent) (c : Call).

(** The answer the gateway gives to [c] when asked in state [s]. *)
Definition answer s c : Result (Returns c) :=
  respond (client (this s)) (log s) c.

(** The state once [c] has been read in [s]. *)
Definition after s c : State Agent := snd (readContract c s).

Definition afterAll s (cs : list Call) : State Agent := fold_left after cs s.

(** The value of a [.catch(() => d)] read. *)
Definition orElse {T} (r : Result T) (d : T) : T :=
  match r with Ok v => v | Fail _ => d end.

(** What the cache holds, unexpired, under [key]. *)
Definition lookupLive (key : string) s : option (CacheVal Agent) :=
  match cache (this s) !! key with
  | Some entry =>
      if (now s >? expiresAt entry)%Z then None else Some (data entry)
  | None => None
  end.

(** An ownership read that succeeded with the queried address, letter
    case apart. *)
Definition ownedBy (address : string) (r : Result string) : Prop :=
  match r with
  | Ok owner => toLowerCase owner = toLowerCase address
  | Fail _ => False
  end.

(** The ownership probes for the identifiers [n], [n - 1], ..., [i + 1]. *)
Fixpoint probes (n i : nat) : list Call :=
  match n with
  | O => []
  | S n' =>
      if (i <? n)%nat
      then Registry_ownerOf (Z.of_nat n) :: probes n' i
      else []
  end.

(** A method that returns in every state. *)
Definition NoThrow {A} (m : M Agent A) : Prop :=
  ∀ s, ∃ a, fst (m s) = Return a.

(** Every value in the cache satisfies [P], with the key it is under. *)
Definition cacheAll (P : string → CacheVal Agent → Prop) s : Prop :=
  ∀ key entry, cache (this s) !! key = Some entry → P key (data entry).

(** A verification result is either a positive one carrying the record
    and its trust level, or a negative one carrying an error message. *)
Definition wellShaped (agent_trustLevel : Agent → TrustLevel)
    (r : VerificationResult Agent) : Prop :=
  (∃ a, r = {| verified := true; trustLevel := agent_trustLevel a;
               agent := Some a; error := None |}) ∨
  (∃ msg, r = notVerified msg).

End Vocabulary.

(** The licenses the loop of the V2 [getAgent] collects, as a function of
    the gateway and of the calls made before each read. *)
Fixpoint licensesFrom (rpc : Remote) (l : list Call) (tokenId : Z) (n : nat)
    (i : Z) (licenses : list V2.License) : list V2.License :=
  match n with
  | O => licenses
  | S n' =>
      match respond rpc l (Registry_getLicense tokenId i) with
      | Ok (lic0, lic1, lic2) =>
          licensesFrom rpc (l ++ [Registry_getLicense tokenId i]) tokenId n'
            (i + 1)%Z
            (licenses ++ [{| V2.license_type := lic0; V2.license_id := lic1;
                             V2.issuedAt := Z.of_N lic2 |}])
      | Fail _ => licenses
      end
  end.

(** The five reads the V2 [getAgent] issues at once. *)
Definition V2_reads (tokenId : Z) : list Call :=
  [Registry_getAgent tokenId; Registry_isVerified tokenId;
   Registry_getLineage tokenId; Registry_getLicenseCount tokenId;
   Registry_tokenURI tokenId].

(** The four reads the V1 [getAgent] issues at once. *)
Definition V1_reads (tokenId : Z) : list Call :=
  [RegistryV1_getAgent tokenId; RegistryV1_getLicenses tokenId;
   Registry_ownerOf tokenId; Registry_tokenURI tokenId].

(** The record the V2 [getAgent] assembles when it starts reading after
    the calls [l], as a function of the gateway alone. *)
Definition V2_assemble (rpc : Remote) (l : list Call) (tokenId : Z)
    : option V2.Agent :=
  match respond rpc l (Registry_getAgent tokenId) with
  | Fail _ => None
  | Ok (name, agentType, owner, birthBlock) =>
      let l1 := l ++ [Registry_getAgent tokenId] in
      let l2 := l1 ++ [Registry_isVerified tokenId] in
      let l3 := l2 ++ [Registry_getLineage tokenId] in
      let l4 := l3 ++ [Registry_getLicenseCount tokenId] in
      let l5 := l ++ V2_reads tokenId in
      let verified :=
        orElse (respond rpc l1 (Registry_isVerified tokenId)) false in
      let lineage :=
        orElse (respond rpc l2 (Registry_getLineage tokenId)) (0%N, 0%N) in
      let licenseCount :=
        orElse (respond rpc l3 (Registry_getLicenseCount tokenId)) 0%N in
      let tokenURI :=
        orElse (respond rpc l4 (Registry_tokenURI tokenId)) ""%string in
      let licenses :=
        licensesFrom rpc l5 tokenId (Z.to_nat (Z.of_N licenseCount)) 0 [] in
      Some {| V2.id := tokenId;
              V2.name := name;
              V2.agentType := agentType;
              V2.owner := owner;
              V2.birthBlock := Z.of_N birthBlock;
              V2.isVerified := verified;
              V2.trustLevel := V2.determineTrustLevel verified licenses;
              V2.licenses := licenses;
              V2.lineage := {| V2.parentId := Z.of_N (fst lineage);
                               V2.depth := Z.of_N (snd lineage) |};
              V2.tokenURI := tokenURI |}
  end.

(** The record the V1 [getAgent] assembles when it starts reading after
    the calls [l]. *)
Definition V1_assemble (rpc : Remote) (l : list Call) (tokenId : Z)
    : option V1.Agent :=
  let l1 := l ++ [RegistryV1_getAgent tokenId] in
  let l2 := l1 ++ [RegistryV1_getLicenses tokenId] in
  let l3 := l2 ++ [Registry_ownerOf tokenId] in
  match respond rpc l (RegistryV1_getAgent tokenId),
        respond rpc l2 (Registry_ownerOf tokenId),
        respond rpc l3 (Registry_tokenURI tokenId) with
  | Ok record, Ok owner, Ok tokenURI =>
      let licenses :=
        orElse (respond rpc l1 (RegistryV1_getLicenses tokenId)) [] in
      Some {| V1.id := tokenId;
              V1.name := rec_name record;
              V1.agentType := rec_agentType record;
              V1.platform := rec_platform record;
              V1.owner := owner;
              V1.creator := rec_creator record;
              V1.parentAgentId := Z.of_N (rec_parentAgentId record);
              V1.humanPrincipal := rec_humanPrincipal record;
              V1.lineageDepth := Z.of_N (rec_lineageDepth record);
              V1.birthTimestamp := Z.of_N (rec_birthTimestamp record);
              V1.agent_active := rec_active record;
              V1.trustLevel :=
                V1.computeTrustLevel (rec_humanPrincipal record) licenses;
              V1.licenses := List.map V1.copyLicense licenses;
              V1.tokenURI := tokenURI |}
  | _, _, _ => None
  end.

(** A state of the client of gateway [rpc] whose cached values all
    satisfy [P]. *)
Definition stateInv {Agent : Type} (rpc : Remote)
    (P : string → CacheVal Agent → Prop) (s : State Agent) : Prop :=
  client (this s) = rpc ∧ cacheAll P s.

(** A method that keeps an invariant. *)
Definition Preserves {Agent A : Type} (I : State Agent → Prop)
    (m : M Agent A) : Prop :=
  ∀ s, I s → I (snd (m s)).

(** The state of a client just built, at time [t0], the gateway having
    already served the calls [l0]. *)
Definition initial {Agent : Type}
    (createPublicClient : option string → Remote)
    (config : option OriginConfig) (t0 : Z) (l0 : list Call) : State Agent :=
  {| this := constructor createPublicClient config; now := t0; log := l0 |}.

(** The license reads for the indices [i], [i + 1], ..., [n] of them. *)
Fixpoint licenseReads (tokenId : Z) (i : Z) (n : nat) : list Call :=
  match n with
  | O => []
  | S n' => Registry_getLicense tokenId i :: licenseReads tokenId (i + 1)%Z n'
  end.

(** The license record made of one answer of [getLicense]. *)
Definition toLicense (lic : string * string * N) : V2.License :=
  let '(lic0, lic1, lic2) := lic in
  {| V2.license_type := lic0; V2.license_id := lic1;
     V2.issuedAt := Z.of_N lic2 |}.

(** Identical upstream data: the answers to the reads the V2 assembler
    makes for [tokenId] do not depend on what was read before. *)
Definition stableV2 (rpc : Remote) (tokenId : Z) : Prop :=
  ∀ (l l' : list Call) (c : Call),
    c ∈ V2_reads tokenId ∨ (∃ i, c = Registry_getLicense tokenId i) →
    respond rpc l c = respond rpc l' c.

(** The same for the reads of the V1 assembler. *)
Definition stableV1 (rpc : Remote) (tokenId : Z) : Prop :=
  ∀ (l l' : list Call) (c : Call),
    c ∈ V1_reads tokenId → respond rpc l c = respond rpc l' c.

(** The cache holds agent records under the keys ["agent:<id>"],
    statistics under ["stats"], and nothing else. *)
Definition wellTyped {Agent : Type} (key : string) (v : CacheVal Agent)
    : Prop :=
  match v with
  | VAgent _ => ∃ tokenId : Z, key = "agent:" +:+ pretty tokenId
  | VStats _ => key = "stats"%string
  end.

(** A property of the agent records of the cache, as one of its values. *)
Definition onAgents {Agent : Type} (Q : string → Agent → Prop)
    (key : string) (v : CacheVal Agent) : Prop :=
  match v with
  | VAgent a => Q key a
  | VStats _ => True
  end.

(** The same state, [ms] milliseconds later. *)
Definition later {Agent : Type} (ms : Z) (s : State Agent) : State Agent :=
  {| this := this s; now := (now s + ms)%Z; log := log s |}.

(** The value of a [.then(f).catch(() => d)] read. *)
Definition thenOrElse {T U} (f : T → U) (r : Result T) (d : U) : U :=
  match r with Ok v => f v | Fail _ => d end.

(** * A sample registry

    Three birth certificates have been issued.  Certificate 2 belongs to
    [addressX]; it is not verified, its lineage cannot be read, and of its
    two licenses only the first can be read.  The ownership read of
    certificate 3 fails.  The CLAMS supply is one million tokens. *)

Definition addressX : string := "0xAbCd0000000000000000000000000000000000Ef".
Definition addressY : string := "0x1111111111111111111111111111111111111111".

Definition sampleRecord : AgentRecord :=
  {| rec_name := "Suppi";
     rec_agentType := "guardian";
     rec_platform := "openclaw";
     rec_creator := addressY;
     rec_parentAgentId := 0;
     rec_humanPrincipal := V1.zeroAddress;
     rec_lineageDepth := 0;
     rec_birthTimestamp := 1700000000;
     rec_publicKeyHash := "0x00";
     rec_active := true |}.

Definition sampleLicenseTuple : LicenseTuple :=
  {| tup_licenseType := "MLO";
     tup_licenseNumber := "154083";
     tup_holder := "Suppi";
     tup_jurisdiction := "US";
     tup_active := true |}.

Definition reverted {T} : Result T := Fail (ErrorObj "execution reverted").

Definition sampleRespond (c : Call) : Result (Returns c) :=
  match c return Result (Returns c) with
  | Registry_balanceOf a =>
      Ok (if String.eqb (toLowerCase a) (toLowerCase addressX)
          then 1%N else 0%N)
  | Registry_ownerOf i =>
      if (i =? 2)%Z then Ok (toLowerCase addressX)
      else if (i =? 1)%Z then Ok addressY
      else reverted
  | Registry_tokenURI i =>
      if (i =? 2)%Z then Ok "ipfs://suppi"%string else reverted
  | Registry_getAgent i =>
      if (i =? 2)%Z
      then Ok ("Suppi"%string, "guardian"%string, addressX, 100%N)
      else reverted
  | Registry_isVerified _ => Ok false
  | Registry_getLineage _ => reverted
  | Registry_getLicenseCount i => if (i =? 2)%Z then Ok 2%N else Ok 0%N
  | Registry_getLicense i j =>
      if ((i =? 2) && (j =? 0))%Z
      then Ok ("MLO"%string, "154083"%string, 1700000000%N)
      else reverted
  | Registry_totalRegistered => Ok 3%N
  | RegistryV1_getAgent i => if (i =? 2)%Z then Ok sampleRecord else reverted
  | RegistryV1_getLicenses i =>
      if (i =? 2)%Z then Ok [sampleLicenseTuple] else reverted
  | RegistryV1_totalAgents => Ok 3%N
  | Faucet_hasClaimed _ => reverted
  | Faucet_totalClaims => Ok 7%N
  | Clams_balanceOf _ => Fail (ErrorObj "rate limited")
  | Clams_totalSupply => Ok (1000000 * 10 ^ 18)%N
  end.

Definition sampleRegistry : Remote :=
  {| respond := λ _, sampleRespond; latency := λ _ _, 20%Z |}.

(** An endpoint that is down. *)
Definition deadEndpoint : Remote :=
  {| respond := λ _ _, Fail (ErrorObj "network down");
     latency := λ _ _, 20%Z |}.

(** An endpoint that serves seven calls as [sampleRegistry] does and
    fails from then on. *)
Definition flakyRegistry : Remote :=
  {| respond := λ l c,
       if (List.length l <? 7)%nat then sampleRespond c
       else Fail (ErrorObj "network down");
     latency := λ _ _, 20%Z |}.

(** The default endpoint is the sample registry; any configured endpoint
    is down. *)
Definition sampleClient (rpcUrl : option string) : Remote :=
  match rpcUrl with None => sampleRegistry | Some _ => deadEndpoint end.

Definition sampleState : State V2.Agent := initial sampleClient None 1000 [].

Definition deadState : State V2.Agent :=
  initial sampleClient
    (Some {| config_rpcUrl := Some "http://localhost:1"%string;
             config_cacheTtl := Some 5000%Z |}) 1000 [].

(** A client of the flaky endpoint that resolved certificate 2 a minute
    ago: the record is still in the cache, and has expired. *)
Definition staleState : State V2.Agent :=
  V2.session [DoGetAgent 2; Wait 60000]
    (initial (λ _, flakyRegistry) None 1000 []).

Definition sampleLicense : V2.License :=
  {| V2.license_type := "MLO"; V2.license_id := "154083";
     V2.issuedAt := 1700000000 |}.

Definition sampleAgent : V2.Agent :=
  {| V2.id := 2;
     V2.name := "Suppi";
     V2.agentType := "guardian";
     V2.owner := addressX;
     V2.birthBlock := 100;
     V2.isVerified := false;
     V2.trustLevel := Level0;
     V2.licenses := [sampleLicense];
     V2.lineage := {| V2.parentId := 0; V2.depth := 0 |};
     V2.tokenURI := "ipfs://suppi" |}.

Definition sampleAgentV1 : V1.Agent :=
  {| V1.id := 2;
     V1.name := "Suppi";
     V1.agentType := "guardian";
     V1.platform := "openclaw";
     V1.owner := toLowerCase addressX;
     V1.creator := addressY;
     V1.parentAgentId := 0;
     V1.humanPrincipal := V1.zeroAddress;
     V1.lineageDepth := 0;
     V1.birthTimestamp := 1700000000;
     V1.agent_active := true;
     V1.trustLevel := Level2;
     V1.licenses := [V1.copyLicense sampleLicenseTuple];
     V1.tokenURI := "ipfs://suppi" |}.

Definition sampleStats : ProtocolStats :=
  {| totalRegistered := 3; totalClaims := 7; totalClamsSupply := "1000000" |}.

(** The sample client with statistics just stored, and the same client
    forty seconds later. *)
Definition freshStats : State V2.Agent :=
  snd (setCache "stats" (VStats sampleStats) sampleState).

Definition oldStats : State V2.Agent := V2.exec (Wait 40000) freshStats.

(** A client of the flaky endpoint, just built. *)
Definition flakyState : State V2.Agent :=
  initial (λ _, flakyRegistry) None 1000 [].

(** The sample registry once certificate 2 has been verified and its
    second license can be read. *)
Definition fullRespond (c : Call) : Result (Returns c) :=
  match c as c0 return Result (Returns c0) with
  | Registry_isVerified _ => Ok true
  | Registry_getLicense i j =>
      if ((i =? 2) && (j =? 1))%Z
      then Ok ("Series 7"%string, "S7-1"%string, 1700000001%N)
      else sampleRespond (Registry_getLicense i j)
  | c' => sampleRespond c'
  end.

Definition fullRegistry : Remote :=
  {| respond := λ _, fullRespond; latency := λ _ _, 20%Z |}.

Definition fullState : State V2.Agent :=
  initial (λ _, fullRegistry) None 1000 [].

Definition secondLicense : V2.License :=
  {| V2.license_type := "Series 7"; V2.license_id := "S7-1";
     V2.issuedAt := 1700000001 |}.





(** The sample client a moment after it resolved certificate 2. *)
Definition warmState : State V2.Agent :=
  later 100 (snd (V2.getAgent 2 sampleState)).

(** * Properties *)

(** ** Running the monad *)

(** Case analysis on the next answer of the gateway the goal depends on. *)
Ltac case_response :=
  match goal with
  | |- context [match respond ?rpc ?l ?c with _ => _ end] =>
      destruct (respond rpc l c)
  | |- context [orElse (respond ?rpc ?l ?c) _] =>
      destruct (respond rpc l c)
  end.

Section Running.

Context {Agent : Type}.
Implicit Types (s : State Agent) (c : Call) (key : string).

Lemma readContract_run c s :
  readContract c s
  = (match answer s c with Ok v => Return v | Fail e => Throw e end,
     after s c).
Proof. reflexivity. Qed.

Lemma after_this s c : this (after s c) = this s.
Proof. reflexivity. Qed.

Lemma after_log s c : log (after s c) = log s ++ [c].
Proof. reflexivity. Qed.

Lemma afterAll_this s cs : this (afterAll s cs) = this s.
Proof.
  revert s. induction cs as [|c cs IH]; intros s; [done|].
  simpl. by rewrite IH.
Qed.

Lemma afterAll_log s cs : log (afterAll s cs) = log s ++ cs.
Proof.
  revert s. induction cs as [|c cs IH]; intros s; simpl.
  - by rewrite app_nil_r.
  - rewrite IH, after_log. by rewrite <- app_assoc.
Qed.

Lemma afterAll_app s cs cs' :
  afterAll s (cs ++ cs') = afterAll (afterAll s cs) cs'.
Proof. apply fold_left_app. Qed.

Lemma getCache_fst key s : fst (getCache key s) = Return (lookupLive key s).
Proof.
  unfold getCache, lookupLive.
  destruct (cache (this s) !! key) as [entry|]; [|done].
  by destruct (now s >? expiresAt entry)%Z.
Qed.

Lemma getCache_run key s :
  getCache key s = (Return (lookupLive key s), snd (getCache key s)).
Proof. rewrite <- getCache_fst. by destruct (getCache key s). Qed.

(** [getCache] leaves everything but the cache alone, and the cache it
    leaves is the one it found, less possibly the entry under [key]. *)
Lemma getCache_state key s :
  let s' := snd (getCache key s) in
  client (this s') = client (this s) ∧
  cacheTtl (this s') = cacheTtl (this s) ∧
  now s' = now s ∧ log s' = log s ∧
  (cache (this s') = cache (this s) ∨
   cache (this s') = delete key (cache (this s))).
Proof.
  unfold getCache. destruct (cache (this s) !! key) as [entry|]; simpl.
  - destruct (now s >? expiresAt entry)%Z; simpl; auto 10.
  - auto 10.
Qed.

Lemma getCache_hit key s v :
  lookupLive key s = Some v → getCache key s = (Return (Some v), s).
Proof.
  unfold getCache, lookupLive.
  destruct (cache (this s) !! key) as [entry|]; [|done].
  destruct (now s >? expiresAt entry)%Z; [done|]. by intros [= <-].
Qed.

End Running.
(** ** The cache *)

Section CacheFacts.

Context {Agent : Type}.
Implicit Types (s : State Agent) (key : string) (d : CacheVal Agent).

Lemma setCache_lookup key d s :
  cache (this (snd (setCache key d s))) !! key
  = Some {| data := d; expiresAt := (now s + cacheTtl (this s))%Z |}.
Proof. simpl. apply lookup_insert_eq. Qed.

Lemma setCache_lookup_ne key key' d s :
  key ≠ key' →
  cache (this (snd (setCache key d s))) !! key' = cache (this s) !! key'.
Proof. intros Hne. simpl. by apply lookup_insert_ne. Qed.

Lemma getCache_expired key s entry :
  cache (this s) !! key = Some entry →
  (now s > expiresAt entry)%Z →
  getCache key s = (Return None, set_cache (delete key) s).
Proof.
  intros Hentry Hlate. unfold getCache. rewrite Hentry.
  destruct (Z.gtb_spec (now s) (expiresAt entry)); [done | lia].
Qed.

Lemma getCache_live key s entry :
  cache (this s) !! key = Some entry →
  (now s ≤ expiresAt entry)%Z →
  getCache key s = (Return (Some (data entry)), s).
Proof.
  intros Hentry Hlive. unfold getCache. rewrite Hentry.
  destruct (Z.gtb_spec (now s) (expiresAt entry)); [lia | done].
Qed.

End CacheFacts.

(** C5.  The cache contract: the lifetime is fixed when the client is
    built ([config.cacheTtl], 30000 ms when it is not given) and no
    operation on the cache changes it; [setCache] stores the value under
    the key with [expiresAt = now + cacheTtl], whatever the key, and leaves
    the other keys alone; a [getCache] that finds an entry whose
    [expiresAt] has passed deletes it and reports absent; a [getCache] that
    finds an entry that has not expired returns its value and changes
    nothing. *)
Theorem cache_contract {Agent : Type}
    (createPublicClient : option string → Remote)
    (config : option OriginConfig)
    (s : State Agent) (key : string) (d : CacheVal Agent) :
  cacheTtl (constructor (Agent := Agent) createPublicClient None) = 30000%Z ∧
  cacheTtl (constructor (Agent := Agent) createPublicClient config)
    = default 30000%Z (config ≫= config_cacheTtl) ∧
  cache (constructor (Agent := Agent) createPublicClient config) = ∅ ∧
  (let s' := snd (setCache key d s) in
   fst (setCache key d s) = Return tt ∧
   cache (this s') !! key
     = Some {| data := d; expiresAt := (now s + cacheTtl (this s))%Z |} ∧
   (∀ key', key ≠ key' → cache (this s') !! key' = cache (this s) !! key') ∧
   cacheTtl (this s') = cacheTtl (this s)) ∧
  (∀ entry, cache (this s) !! key = Some entry →
     (now s > expiresAt entry)%Z →
     fst (getCache key s) = Return None ∧
     cache (this (snd (getCache key s))) = delete key (cache (this s)) ∧
     cache (this (snd (getCache key s))) !! key = None ∧
     cacheTtl (this (snd (getCache key s))) = cacheTtl (this s)) ∧
  (∀ entry, cache (this s) !! key = Some entry →
     (now s ≤ expiresAt entry)%Z →
     getCache key s = (Return (Some (data entry)), s)).
Proof.
  split; [done|]. split; [done|]. split; [done|].
  split; [|split].
  - cbn zeta. split; [done|]. split; [apply setCache_lookup|].
    split; [|done]. intros key' Hne. by apply setCache_lookup_ne.
  - intros entry Hentry Hlate.
    rewrite (getCache_expired _ _ _ Hentry Hlate). simpl.
    split; [done|]. split; [done|]. split; [apply lookup_delete_eq | done].
  - intros entry Hentry Hlive. by apply getCache_live.
Qed.

(** ** [isRegistered] *)

(** C7.  [isRegistered] always returns a boolean, never throws; the boolean
    is [true] exactly when the ownership-count read for the address
    succeeds with a nonzero count, hence [false] when the read fails. *)
Theorem isRegistered_iff {Agent : Type} (address : string) (s : State Agent) :
  ∃ b : bool,
    fst (isRegistered address s) = Return b ∧
    (b = true ↔
       ∃ n : N, respond (client (this s)) (log s) (Registry_balanceOf address)
                = Ok n ∧ n ≠ 0%N) ∧
    (∀ e, respond (client (this s)) (log s) (Registry_balanceOf address)
          = Fail e → b = false).
Proof.
  unfold isRegistered, try_catch, bind, readContract, ret.
  destruct (respond _ _ _) as [n|e] eqn:Hread; simpl.
  - exists (0 <? n)%N. split; [done|]. split; [|done]. split.
    + intros Hpos. exists n. split; [done|].
      apply N.ltb_lt in Hpos. lia.
    + intros (m & Hm & Hne). injection Hm as <-.
      apply N.ltb_lt. lia.
  - exists false. split; [done|]. split; [|done]. split; [done|].
    by intros (m & Hm & _).
Qed.

(** ** The record assembler of the V2 client *)

Section AssemblerV2.

Implicit Types (s : State V2.Agent) (tokenId : Z).

Lemma V2_fetchLicenses_run tokenId n : ∀ i licenses s,
  ∃ cs,
    V2.fetchLicenses tokenId n i licenses s
    = (Return (licensesFrom (client (this s)) (log s) tokenId n i licenses),
       afterAll s cs).
Proof.
  induction n as [|n IH]; intros i licenses s.
  - by exists [].
  - simpl. unfold bind, try_catch at 1. rewrite readContract_run.
    unfold answer.
    destruct (respond _ _ _) as [[[lic0 lic1] lic2]|e]; simpl.
    + edestruct IH as [cs Hcs]. rewrite Hcs.
      exists (Registry_getLicense tokenId i :: cs). done.
    + by exists [Registry_getLicense tokenId i].
Qed.

Lemma V2_fetchAll_run tokenId s :
  let rpc := client (this s) in
  let l1 := log s ++ [Registry_getAgent tokenId] in
  let l2 := l1 ++ [Registry_isVerified tokenId] in
  let l3 := l2 ++ [Registry_getLineage tokenId] in
  let l4 := l3 ++ [Registry_getLicenseCount tokenId] in
  V2.fetchAll tokenId s
  = (match respond rpc (log s) (Registry_getAgent tokenId) with
     | Ok agentData =>
         Return
           (agentData,
            (orElse (respond rpc l1 (Registry_isVerified tokenId)) false,
             (orElse (respond rpc l2 (Registry_getLineage tokenId))
                (0%N, 0%N),
              (orElse (respond rpc l3 (Registry_getLicenseCount tokenId))
                 0%N,
               orElse (respond rpc l4 (Registry_tokenURI tokenId))
                 ""%string))))
     | Fail e => Throw e
     end,
     afterAll s (V2_reads tokenId)).
Proof.
  cbn zeta. unfold V2.fetchAll, Promise_all, try_catch, readContract, ret.
  simpl.
  destruct (respond _ (log s) _);
    destruct (respond _ (log s ++ _) (Registry_isVerified tokenId));
    destruct (respond _ _ (Registry_getLineage tokenId));
    destruct (respond _ _ (Registry_getLicenseCount tokenId));
    destruct (respond _ _ (Registry_tokenURI tokenId)); reflexivity.
Qed.

Lemma V2_getAgent_hit tokenId s a :
  lookupLive (V2.cacheKey tokenId) s ≫= asAgent = Some a →
  V2.getAgent tokenId s = (Return (Some a), s).
Proof.
  intros Hhit. unfold V2.getAgent, bind.
  destruct (lookupLive _ s) as [v|] eqn:Hlive; [|done].
  rewrite (getCache_hit _ _ _ Hlive). simpl in *. by rewrite Hhit.
Qed.

(** On a miss the assembler reads the registry, starting right after the
    calls already made; it returns what [V2_assemble] says and stores a
    record, when there is one, in the cache the lookup left. *)
Lemma V2_getAgent_miss tokenId s :
  lookupLive (V2.cacheKey tokenId) s ≫= asAgent = None →
  let s1 := snd (getCache (V2.cacheKey tokenId) s) in
  let r := V2_assemble (client (this s)) (log s) tokenId in
  ∃ cs,
    let s' := afterAll s1 (V2_reads tokenId ++ cs) in
    V2.getAgent tokenId s
    = (Return r,
       match r with
       | Some a =>
           set_cache
             (insert (V2.cacheKey tokenId)
                {| data := VAgent a;
                   expiresAt := (now s' + cacheTtl (this s))%Z |}) s'
       | None => s'
       end).
Proof.
  intros Hmiss. cbn zeta.
  destruct (getCache_state (V2.cacheKey tokenId) s)
    as (Hclient & Httl & _ & Hlog & _).
  unfold V2.getAgent. unfold bind at 1. rewrite getCache_run, Hmiss.
  set (s1 := snd (getCache (V2.cacheKey tokenId) s)) in *.
  unfold try_catch. unfold bind at 1. rewrite V2_fetchAll_run.
  unfold V2_assemble. rewrite Hclient, Hlog.
  destruct (respond _ (log s) _) as [[[[name agentType] owner] birthBlock]|e].
  - unfold bind at 1.
    edestruct (V2_fetchLicenses_run tokenId) as [cs Hcs]. rewrite Hcs.
    exists cs. unfold bind, setCache, ret. simpl fst. simpl snd.
    rewrite afterAll_this, afterAll_log, Hclient, Hlog, afterAll_app.
    f_equal. unfold set_cache. by rewrite !afterAll_this, Httl.
  - exists []. by rewrite app_nil_r.
Qed.

End AssemblerV2.

(** ** The record assembler of the V1 client *)

Section AssemblerV1.

Implicit Types (s : State V1.Agent) (tokenId : Z).

Lemma V1_getAgent_hit tokenId s a :
  lookupLive (V1.cacheKey tokenId) s ≫= asAgent = Some a →
  V1.getAgent tokenId s = (Return (Some a), s).
Proof.
  intros Hhit. unfold V1.getAgent, bind.
  destruct (lookupLive _ s) as [v|] eqn:Hlive; [|done].
  rewrite (getCache_hit _ _ _ Hlive). simpl in *. by rewrite Hhit.
Qed.

Lemma V1_getAgent_miss tokenId s :
  lookupLive (V1.cacheKey tokenId) s ≫= asAgent = None →
  let s1 := snd (getCache (V1.cacheKey tokenId) s) in
  let r := V1_assemble (client (this s)) (log s) tokenId in
  let s' := afterAll s1 (V1_reads tokenId) in
  V1.getAgent tokenId s
  = (Return r,
     match r with
     | Some a =>
         set_cache
           (insert (V1.cacheKey tokenId)
              {| data := VAgent a;
                 expiresAt := (now s' + cacheTtl (this s))%Z |}) s'
     | None => s'
     end).
Proof.
  intros Hmiss. cbn zeta.
  destruct (getCache_state (V1.cacheKey tokenId) s)
    as (Hclient & Httl & _ & Hlog & _).
  unfold V1.getAgent. unfold bind at 1. rewrite getCache_run, Hmiss.
  set (s1 := snd (getCache (V1.cacheKey tokenId) s)) in *.
  rewrite <- Hclient, <- Hlog, <- Httl. clearbody s1.
  unfold V1_assemble, V1.fetchAll, try_catch, bind, Promise_all, readContract,
    setCache, ret, set_cache.
  simpl. repeat (case_response; simpl); reflexivity.
Qed.

End AssemblerV1.

(** ** The shared operations *)

Section FacadeFacts.

Context {Agent : Type}.
Variable agent_trustLevel : Agent → TrustLevel.
Variable getAgent : Z → M Agent (option Agent).
Variable getTotalRegistered : M Agent Z.

Implicit Types (s : State Agent) (address : string).

Lemma NoThrow_ret {A} (a : A) : NoThrow (Agent := Agent) (ret a).
Proof. intros s. by exists a. Qed.

Lemma NoThrow_try_catch {A} (m : M Agent A) (h : Thrown → M Agent A) :
  (∀ e, NoThrow (h e)) → NoThrow (try_catch m h).
Proof.
  intros Hh s. unfold try_catch. destruct (m s) as [[a|e] s'].
  - by exists a.
  - apply Hh.
Qed.

Lemma verifyAgent_NoThrow address :
  NoThrow (verifyAgent agent_trustLevel getAgent getTotalRegistered address).
Proof. apply NoThrow_try_catch. intros e. apply NoThrow_ret. Qed.

Lemma verifyAgentById_NoThrow tokenId :
  NoThrow (verifyAgentById agent_trustLevel getAgent tokenId).
Proof. apply NoThrow_try_catch. intros e. apply NoThrow_ret. Qed.

Lemma isRegistered_NoThrow address :
  NoThrow (Agent := Agent) (isRegistered address).
Proof. apply NoThrow_try_catch. intros e. apply NoThrow_ret. Qed.

Lemma hasClaimed_NoThrow address :
  NoThrow (Agent := Agent) (hasClaimed address).
Proof. apply NoThrow_try_catch. intros e. apply NoThrow_ret. Qed.

(** The ownership probe of one candidate never throws; it changes the
    state as the read does. *)
Lemma probe_run normalizedAddress (i : Z) s :
  try_catch
    (let* owner := readContract (Registry_ownerOf i) in
     ret (String.eqb (toLowerCase owner) normalizedAddress))
    (λ _, ret false) s
  = (Return (match answer s (Registry_ownerOf i) with
             | Ok owner => String.eqb (toLowerCase owner) normalizedAddress
             | Fail _ => false
             end),
     after s (Registry_ownerOf i)).
Proof.
  unfold try_catch, bind. rewrite readContract_run.
  by destruct (answer s (Registry_ownerOf i)).
Qed.

Lemma scanOwners_S normalizedAddress n s :
  scanOwners getAgent normalizedAddress (S n) s
  = if match answer s (Registry_ownerOf (Z.of_nat (S n))) with
       | Ok owner => String.eqb (toLowerCase owner) normalizedAddress
       | Fail _ => false
       end
    then getAgent (Z.of_nat (S n)) (after s (Registry_ownerOf (Z.of_nat (S n))))
    else scanOwners getAgent normalizedAddress n
           (after s (Registry_ownerOf (Z.of_nat (S n)))).
Proof.
  change (scanOwners getAgent normalizedAddress (S n) s)
    with (bind
            (try_catch
               (let* owner := readContract (Registry_ownerOf (Z.of_nat (S n))) in
                ret (String.eqb (toLowerCase owner) normalizedAddress))
               (λ _, ret false))
            (λ found : bool,
               if found then getAgent (Z.of_nat (S n))
               else scanOwners getAgent normalizedAddress n) s).
  unfold bind at 1. rewrite probe_run.
  destruct (answer s _) as [owner|e]; [|done].
  by destruct (String.eqb _ _).
Qed.

Lemma scanOwners_NoThrow normalizedAddress n :
  (∀ tokenId, NoThrow (getAgent tokenId)) →
  NoThrow (scanOwners getAgent normalizedAddress n).
Proof.
  intros HgetAgent. induction n as [|n IH]; intros s.
  - by exists None.
  - rewrite scanOwners_S.
    destruct (match answer s _ with Ok _ => _ | Fail _ => _ end).
    + apply HgetAgent.
    + apply IH.
Qed.

(** [findAgentByOwner] throws exactly when reading the total does. *)
Lemma findAgentByOwner_Throw address s e :
  (∀ tokenId, NoThrow (getAgent tokenId)) →
  fst (findAgentByOwner getAgent getTotalRegistered address s) = Throw e
  ↔ fst (getTotalRegistered s) = Throw e.
Proof.
  intros HgetAgent. unfold findAgentByOwner, bind.
  destruct (getTotalRegistered s) as [[total|e'] s1]; simpl;
    [|naive_solver].
  destruct (scanOwners_NoThrow (toLowerCase address) (Z.to_nat total)
              HgetAgent s1) as [r Hr].
  rewrite Hr. naive_solver.
Qed.

(** [getStats] throws exactly when it finds no live statistics in the
    cache and reading the total then throws. *)
Lemma getStats_Throw s e :
  fst (getStats getTotalRegistered s) = Throw e
  ↔ lookupLive "stats" s ≫= asStats = None ∧
    fst (getTotalRegistered (snd (getCache "stats" s))) = Throw e.
Proof.
  unfold getStats. unfold bind at 1. rewrite getCache_run.
  destruct (lookupLive "stats" s ≫= asStats) as [p|]; simpl.
  - split; [done | by intros [? _]].
  - unfold bind, Promise_all, try_catch, readContract, setCache, ret.
    destruct (getTotalRegistered _) as [[total|e'] s1]; simpl;
      repeat case_response; simpl;
      (split; [intros [= Heq] | intros [_ [= Heq]]]); by subst.
Qed.

Lemma getClamsBalance_Throw address s e :
  fst (getClamsBalance address s) = Throw e
  ↔ answer s (Clams_balanceOf address) = Fail e.
Proof.
  unfold getClamsBalance, bind. rewrite readContract_run.
  destruct (answer s _); simpl; naive_solver.
Qed.

Lemma verifyAgent_wellShaped address s r :
  fst (verifyAgent agent_trustLevel getAgent getTotalRegistered address s)
  = Return r → wellShaped agent_trustLevel r.
Proof.
  unfold verifyAgent, try_catch, bind. rewrite readContract_run.
  destruct (answer s _) as [balance|e0]; simpl.
  - destruct (balance =? 0)%N; simpl.
    + intros [= <-]. right. by eexists.
    + destruct (findAgentByOwner _ _ _ _) as [[[a|]|e1] s1]; simpl;
        intros [= <-]; [left | right | right]; by eexists.
  - intros [= <-]. right. by eexists.
Qed.

Lemma verifyAgentById_wellShaped tokenId s r :
  fst (verifyAgentById agent_trustLevel getAgent tokenId s) = Return r →
  wellShaped agent_trustLevel r.
Proof.
  unfold verifyAgentById, try_catch, bind.
  destruct (getAgent tokenId s) as [[[a|]|e1] s1]; simpl;
    intros [= <-]; [left | right | right]; by eexists.
Qed.

End FacadeFacts.

(** ** The owner scan *)

Lemma probes_ge (n i : nat) : (n ≤ i)%nat → probes n i = [].
Proof.
  intros Hle. destruct n as [|n]; [done|]. simpl.
  destruct (Nat.ltb_spec i (S n)); [lia | done].
Qed.

Lemma probes_lt (n i : nat) :
  (i ≤ n)%nat →
  probes (S n) i = Registry_ownerOf (Z.of_nat (S n)) :: probes n i.
Proof.
  intros Hle. change (probes (S n) i)
    with (if (i <? S n)%nat
          then Registry_ownerOf (Z.of_nat (S n)) :: probes n i else []).
  destruct (Nat.ltb_spec i (S n)); [done | lia].
Qed.

Lemma probes_length (n i : nat) : List.length (probes n i) = (n - i)%nat.
Proof.
  induction n as [|n IH]; [done|].
  destruct (Nat.le_gt_cases i n) as [Hle|Hgt].
  - rewrite (probes_lt _ _ Hle). simpl List.length. rewrite IH. lia.
  - rewrite probes_ge by lia. simpl. lia.
Qed.

Section Scan.

Context {Agent : Type}.
Variable getAgent : Z → M Agent (option Agent).
Variable getTotalRegistered : M Agent Z.

Implicit Types (s : State Agent) (address : string).

Lemma scanOwners_step address (n : nat) s :
  let c := Registry_ownerOf (Z.of_nat (S n)) in
  (ownedBy address (respond (client (this s)) (log s) c) →
   scanOwners getAgent (toLowerCase address) (S n) s
   = getAgent (Z.of_nat (S n)) (after s c)) ∧
  (¬ ownedBy address (respond (client (this s)) (log s) c) →
   scanOwners getAgent (toLowerCase address) (S n) s
   = scanOwners getAgent (toLowerCase address) n (after s c)).
Proof.
  cbn zeta. rewrite scanOwners_S. unfold ownedBy, answer.
  destruct (respond _ _ _) as [owner|e]; [|done].
  destruct (String.eqb_spec (toLowerCase owner) (toLowerCase address)); done.
Qed.

(** The scan stops at the first candidate, from the top, whose ownership
    read succeeds with the queried address: the candidates above it have
    each been probed once, and the assembler takes over. *)
Lemma scanOwners_found address (k : nat) : ∀ (n : nat) s,
  (1 ≤ k ≤ n)%nat →
  (∀ i : nat, (k < i ≤ n)%nat →
     ¬ ownedBy address
         (respond (client (this s)) (log s ++ probes n i)
            (Registry_ownerOf (Z.of_nat i)))) →
  ownedBy address
    (respond (client (this s)) (log s ++ probes n k)
       (Registry_ownerOf (Z.of_nat k))) →
  scanOwners getAgent (toLowerCase address) n s
  = getAgent (Z.of_nat k) (afterAll s (probes n (k - 1))).
Proof.
  induction n as [|n IH]; intros s Hk Habove Hat; [lia|].
  destruct (scanOwners_step address n s) as [Hhit Hmiss].
  destruct (decide (k = S n)) as [->|Hne].
  - rewrite probes_ge, app_nil_r in Hat by lia.
    rewrite (Hhit Hat).
    rewrite probes_lt by lia. rewrite probes_ge by lia. done.
  - assert (Hnot := Habove (S n)).
    rewrite probes_ge, app_nil_r in Hnot by lia.
    rewrite Hmiss by (apply Hnot; lia).
    rewrite IH; [|lia| |].
    + rewrite (probes_lt n (k - 1)) by lia. done.
    + intros i Hi. rewrite after_this, after_log, <- app_assoc. simpl.
      rewrite <- probes_lt by lia. apply Habove. lia.
    + rewrite after_this, after_log, <- app_assoc. simpl.
      rewrite <- probes_lt by lia. done.
Qed.

(** Without such a candidate the scan probes every identifier once and
    returns absent. *)
Lemma scanOwners_none address : ∀ (n : nat) s,
  (∀ i : nat, (1 ≤ i ≤ n)%nat →
     ¬ ownedBy address
         (respond (client (this s)) (log s ++ probes n i)
            (Registry_ownerOf (Z.of_nat i)))) →
  scanOwners getAgent (toLowerCase address) n s
  = (Return None, afterAll s (probes n 0)).
Proof.
  induction n as [|n IH]; intros s Hnone; [done|].
  destruct (scanOwners_step address n s) as [_ Hmiss].
  assert (Hnot := Hnone (S n)).
  rewrite probes_ge, app_nil_r in Hnot by lia.
  rewrite Hmiss by (apply Hnot; lia).
  rewrite IH.
  - rewrite (probes_lt n 0) by lia. done.
  - intros i Hi. rewrite after_this, after_log, <- app_assoc. simpl.
    rewrite <- probes_lt by lia. apply Hnone. lia.
Qed.

End Scan.

(** C3.  Let the total read return [n].  If, scanning from [n] down, no
    candidate above [k] answers with the queried address (its ownership
    read fails or names another owner) and candidate [k] does (letter case
    apart), then [findAgentByOwner] issues the ownership probes of
    [n], [n - 1], ..., [k] in this order, [n - k + 1] of them, touches
    nothing else, and hands over to one call of [getAgent k], whose result
    is its result.  If no candidate from [n] down to 1 answers with the
    address (in particular when [n] is 0), it returns absent after [n]
    probes. *)
Theorem findAgentByOwner_scan {Agent : Type}
    (getAgent : Z → M Agent (option Agent)) (getTotalRegistered : M Agent Z)
    (address : string) (n : nat) (s s0 : State Agent) :
  getTotalRegistered s = (Return (Z.of_nat n), s0) →
  (∀ k : nat, (1 ≤ k ≤ n)%nat →
     (∀ i : nat, (k < i ≤ n)%nat →
        ¬ ownedBy address
            (respond (client (this s0)) (log s0 ++ probes n i)
               (Registry_ownerOf (Z.of_nat i)))) →
     ownedBy address
       (respond (client (this s0)) (log s0 ++ probes n k)
          (Registry_ownerOf (Z.of_nat k))) →
     let sk := afterAll s0 (probes n (k - 1)) in
     findAgentByOwner getAgent getTotalRegistered address s
     = getAgent (Z.of_nat k) sk ∧
     this sk = this s0 ∧
     log sk = log s0 ++ probes n (k - 1) ∧
     List.length (probes n (k - 1)) = (n - k + 1)%nat) ∧
  ((∀ i : nat, (1 ≤ i ≤ n)%nat →
      ¬ ownedBy address
          (respond (client (this s0)) (log s0 ++ probes n i)
             (Registry_ownerOf (Z.of_nat i)))) →
   findAgentByOwner getAgent getTotalRegistered address s
   = (Return None, afterAll s0 (probes n 0)) ∧
   this (afterAll s0 (probes n 0)) = this s0 ∧
   log (afterAll s0 (probes n 0)) = log s0 ++ probes n 0 ∧
   List.length (probes n 0) = n).
Proof.
  intros Htotal. split.
  - intros k Hk Habove Hat. cbn zeta.
    split; [|split; [apply afterAll_this|split; [apply afterAll_log|]]].
    + unfold findAgentByOwner, bind. rewrite Htotal, Nat2Z.id.
      by apply scanOwners_found.
    + rewrite probes_length. lia.
  - intros Hnone.
    split; [|split; [apply afterAll_this|split; [apply afterAll_log|]]].
    + unfold findAgentByOwner, bind. rewrite Htotal, Nat2Z.id.
      by apply scanOwners_none.
    + rewrite probes_length. lia.
Qed.

(** ** Invariants of the cache along a session *)

Section Invariants.

Context {Agent : Type}.
Variable agent_trustLevel : Agent → TrustLevel.
Variable getAgent : Z → M Agent (option Agent).
Variable getTotalRegistered : M Agent Z.
Variable rpc : Remote.
Variable P : string → CacheVal Agent → Prop.
Hypothesis stats_P : ∀ p, P "stats" (VStats p).

Implicit Types (s : State Agent).

Local Abbreviation Inv := (stateInv rpc P).

Lemma Inv_after s c : Inv s → Inv (after s c).
Proof. done. Qed.

Lemma Inv_delete s key : Inv s → Inv (set_cache (delete key) s).
Proof.
  intros [Hrpc Hall]. split; [done|]. intros key' entry Hlook.
  simpl in Hlook. apply lookup_delete_Some in Hlook as [_ Hlook].
  by apply Hall.
Qed.

Lemma Inv_insert s key v t :
  P key v → Inv s →
  Inv (set_cache (insert key {| data := v; expiresAt := t |}) s).
Proof.
  intros Hv [Hrpc Hall]. split; [done|]. intros key' entry Hlook.
  simpl in Hlook. apply lookup_insert_Some in Hlook as [[<- <-]|[_ Hlook]].
  - done.
  - by apply Hall.
Qed.

Lemma Inv_clear s : Inv s → Inv (set_cache (λ _, ∅) s).
Proof. intros [Hrpc _]. split; [done|]. by intros key entry Hlook. Qed.

Lemma Inv_getCache s key : Inv s → Inv (snd (getCache key s)).
Proof.
  intros HI. unfold getCache.
  destruct (cache (this s) !! key) as [entry|]; [|done].
  destruct (now s >? expiresAt entry)%Z; [by apply Inv_delete | done].
Qed.

Lemma Inv_afterAll s cs : Inv s → Inv (afterAll s cs).
Proof.
  revert s. induction cs as [|c cs IH]; intros s HI; [done|].
  simpl. by apply IH, Inv_after.
Qed.

Lemma Preserves_ret {A} (a : A) : Preserves Inv (ret a).
Proof. by intros s. Qed.

Lemma Preserves_bind {A B} (m : M Agent A) (k : A → M Agent B) :
  Preserves Inv m → (∀ a, Preserves Inv (k a)) → Preserves Inv (bind m k).
Proof.
  intros Hm Hk s HI. unfold bind. specialize (Hm s HI).
  destruct (m s) as [[a|e] s']; [by apply Hk | done].
Qed.

Lemma Preserves_try_catch {A} (m : M Agent A) (h : Thrown → M Agent A) :
  Preserves Inv m → (∀ e, Preserves Inv (h e)) →
  Preserves Inv (try_catch m h).
Proof.
  intros Hm Hh s HI. unfold try_catch. specialize (Hm s HI).
  destruct (m s) as [[a|e] s']; [done | by apply Hh].
Qed.

Lemma Preserves_Promise_all {A B} (m1 : M Agent A) (m2 : M Agent B) :
  Preserves Inv m1 → Preserves Inv m2 → Preserves Inv (Promise_all m1 m2).
Proof.
  intros H1 H2 s HI. unfold Promise_all. specialize (H1 s HI).
  destruct (m1 s) as [o1 s1]. specialize (H2 s1 H1).
  by destruct (m2 s1) as [o2 s2].
Qed.

Lemma Preserves_readContract c : Preserves Inv (readContract c).
Proof. intros s HI. by apply Inv_after. Qed.

Lemma Preserves_getCache key : Preserves Inv (getCache key).
Proof. intros s HI. by apply Inv_getCache. Qed.

Hypothesis getAgent_Preserves : ∀ tokenId, Preserves Inv (getAgent tokenId).
Hypothesis getTotalRegistered_Preserves : Preserves Inv getTotalRegistered.

Lemma Preserves_scanOwners normalizedAddress n :
  Preserves Inv (scanOwners getAgent normalizedAddress n).
Proof.
  induction n as [|n IH]; [apply Preserves_ret|].
  intros s HI. rewrite scanOwners_S.
  destruct (match answer s _ with Ok _ => _ | Fail _ => _ end).
  - by apply getAgent_Preserves, Inv_after.
  - by apply IH, Inv_after.
Qed.

Lemma Preserves_findAgentByOwner address :
  Preserves Inv (findAgentByOwner getAgent getTotalRegistered address).
Proof.
  apply Preserves_bind; [done|]. intros total. apply Preserves_scanOwners.
Qed.

Lemma Preserves_verifyAgent address :
  Preserves Inv
    (verifyAgent agent_trustLevel getAgent getTotalRegistered address).
Proof.
  apply Preserves_try_catch; [|intros e; apply Preserves_ret].
  apply Preserves_bind; [apply Preserves_readContract|]. intros balance.
  destruct (balance =? 0)%N; [apply Preserves_ret|].
  apply Preserves_bind; [apply Preserves_findAgentByOwner|].
  intros [a|]; apply Preserves_ret.
Qed.

Lemma Preserves_verifyAgentById tokenId :
  Preserves Inv (verifyAgentById agent_trustLevel getAgent tokenId).
Proof.
  apply Preserves_try_catch; [|intros e; apply Preserves_ret].
  apply Preserves_bind; [done|]. intros [a|]; apply Preserves_ret.
Qed.

Lemma Preserves_getStats : Preserves Inv (getStats getTotalRegistered).
Proof.
  apply Preserves_bind; [apply Preserves_getCache|]. intros cached.
  destruct (cached ≫= asStats) as [p|]; [apply Preserves_ret|].
  apply Preserves_bind.
  - apply Preserves_Promise_all; [done|].
    apply Preserves_Promise_all;
      (apply Preserves_try_catch; [|intros e; apply Preserves_ret]);
      (apply Preserves_bind; [apply Preserves_readContract|]);
      intros r; apply Preserves_ret.
  - intros [total [claims supply]].
    apply Preserves_bind; [|intros _; apply Preserves_ret].
    intros s HI. by apply Inv_insert.
Qed.

(** Whatever the caller does, the invariant holds afterwards. *)
Lemma exec_invariant c s :
  Inv s → Inv (exec agent_trustLevel getAgent getTotalRegistered c s).
Proof.
  intros HI. destruct c; simpl.
  - by apply Preserves_verifyAgent.
  - by apply Preserves_verifyAgentById.
  - revert s HI.
    apply Preserves_try_catch; [|intros e; apply Preserves_ret].
    apply Preserves_bind; [apply Preserves_readContract|].
    intros r; apply Preserves_ret.
  - revert s HI.
    apply Preserves_try_catch; [|intros e; apply Preserves_ret].
    apply Preserves_readContract.
  - by apply getAgent_Preserves.
  - by apply Preserves_findAgentByOwner.
  - by apply Preserves_getStats.
  - revert s HI.
    apply Preserves_bind; [apply Preserves_readContract|].
    intros r; apply Preserves_ret.
  - by apply Inv_clear.
  - done.
Qed.

Lemma session_invariant cs : ∀ s,
  Inv s → Inv (session agent_trustLevel getAgent getTotalRegistered cs s).
Proof.
  induction cs as [|c cs IH]; intros s HI; [done|].
  simpl. by apply IH, exec_invariant.
Qed.

End Invariants.

Lemma initial_invariant {Agent : Type} createPublicClient config t0 l0
    (P : string → CacheVal Agent → Prop) :
  stateInv (createPublicClient (config ≫= config_rpcUrl)) P
    (initial createPublicClient config t0 l0).
Proof. split; [done|]. by intros key entry Hlook. Qed.

(** ** What [getAgent] returns and leaves behind *)

Lemma lookupLive_Some {Agent : Type} key (s : State Agent) v :
  lookupLive key s = Some v →
  ∃ entry, cache (this s) !! key = Some entry ∧ data entry = v ∧
           (now s ≤ expiresAt entry)%Z.
Proof.
  unfold lookupLive. destruct (cache (this s) !! key) as [entry|]; [|done].
  destruct (Z.gtb_spec (now s) (expiresAt entry)); [done|].
  intros [= <-]. exists entry. split; [done|]. split; [done | lia].
Qed.

Lemma lookupLive_agent {Agent : Type} key (s : State Agent) a :
  lookupLive key s ≫= asAgent = Some a →
  ∃ entry, cache (this s) !! key = Some entry ∧ data entry = VAgent a ∧
           (now s ≤ expiresAt entry)%Z.
Proof.
  destruct (lookupLive key s) as [v|] eqn:Hlive; [|done]. simpl.
  destruct v as [a'|p]; [|done]. intros [= <-].
  by apply lookupLive_Some.
Qed.

Section GetAgentV2.

Implicit Types (s : State V2.Agent) (tokenId : Z).

Lemma V2_getAgent_NoThrow tokenId : NoThrow (V2.getAgent tokenId).
Proof.
  intros s.
  destruct (lookupLive (V2.cacheKey tokenId) s ≫= asAgent) as [a|] eqn:Hlive.
  - rewrite (V2_getAgent_hit _ _ _ Hlive). by eexists.
  - destruct (V2_getAgent_miss _ _ Hlive) as [cs Hrun].
    cbn zeta in Hrun. rewrite Hrun. by eexists.
Qed.

Lemma V2_getTotalRegistered_run s :
  V2.getTotalRegistered s
  = (match answer s Registry_totalRegistered with
     | Ok result => Return (Z.of_N result)
     | Fail e => Throw e
     end, after s Registry_totalRegistered).
Proof.
  unfold V2.getTotalRegistered, bind. rewrite readContract_run.
  by destruct (answer s _).
Qed.

Section WithInvariant.

Variable rpc : Remote.
Variable P : string → CacheVal V2.Agent → Prop.
Hypothesis stats_P : ∀ p, P "stats" (VStats p).
Hypothesis assembled_P :
  ∀ l tokenId a,
    V2_assemble rpc l tokenId = Some a → P (V2.cacheKey tokenId) (VAgent a).

Lemma V2_getAgent_Preserves tokenId :
  Preserves (stateInv rpc P) (V2.getAgent tokenId).
Proof.
  intros s HI.
  destruct (lookupLive (V2.cacheKey tokenId) s ≫= asAgent) as [a|] eqn:Hlive.
  - by rewrite (V2_getAgent_hit _ _ _ Hlive).
  - destruct (V2_getAgent_miss _ _ Hlive) as [cs Hrun].
    cbn zeta in Hrun. rewrite Hrun. simpl.
    assert (stateInv rpc P
              (afterAll (snd (getCache (V2.cacheKey tokenId) s))
                 (V2_reads tokenId ++ cs))) as HI'
      by by apply Inv_afterAll, Inv_getCache.
    destruct (V2_assemble _ _ _) as [a|] eqn:Ha; [|done].
    apply Inv_insert; [|done].
    destruct HI as [Hrpc _]. rewrite Hrpc in Ha. by eapply assembled_P.
Qed.

Lemma V2_getAgent_result tokenId s a :
  stateInv rpc P s →
  fst (V2.getAgent tokenId s) = Return (Some a) →
  P (V2.cacheKey tokenId) (VAgent a).
Proof.
  intros [Hrpc Hall].
  destruct (lookupLive (V2.cacheKey tokenId) s ≫= asAgent) as [a'|] eqn:Hlive.
  - rewrite (V2_getAgent_hit _ _ _ Hlive). intros [= <-].
    apply lookupLive_agent in Hlive as (entry & Hentry & Hdata & _).
    rewrite <- Hdata. by apply Hall.
  - destruct (V2_getAgent_miss _ _ Hlive) as [cs Hrun].
    cbn zeta in Hrun. rewrite Hrun, Hrpc. simpl. intros [= Ha].
    by eapply assembled_P.
Qed.

Lemma V2_session_invariant cs s :
  stateInv rpc P s → stateInv rpc P (V2.session cs s).
Proof.
  apply session_invariant; [done| |].
  - apply V2_getAgent_Preserves.
  - intros s' HI. rewrite V2_getTotalRegistered_run. by apply Inv_after.
Qed.

End WithInvariant.

End GetAgentV2.

Section GetAgentV1.

Implicit Types (s : State V1.Agent) (tokenId : Z).

Lemma V1_getAgent_NoThrow tokenId : NoThrow (V1.getAgent tokenId).
Proof.
  intros s.
  destruct (lookupLive (V1.cacheKey tokenId) s ≫= asAgent) as [a|] eqn:Hlive.
  - rewrite (V1_getAgent_hit _ _ _ Hlive). by eexists.
  - rewrite (V1_getAgent_miss _ _ Hlive). by eexists.
Qed.

Lemma V1_getTotalAgents_run s :
  V1.getTotalAgents s
  = (match answer s RegistryV1_totalAgents with
     | Ok result => Return (Z.of_N result)
     | Fail e => Throw e
     end, after s RegistryV1_totalAgents).
Proof.
  unfold V1.getTotalAgents, bind. rewrite readContract_run.
  by destruct (answer s _).
Qed.

Section WithInvariant.

Variable rpc : Remote.
Variable P : string → CacheVal V1.Agent → Prop.
Hypothesis stats_P : ∀ p, P "stats" (VStats p).
Hypothesis assembled_P :
  ∀ l tokenId a,
    V1_assemble rpc l tokenId = Some a → P (V1.cacheKey tokenId) (VAgent a).

Lemma V1_getAgent_Preserves tokenId :
  Preserves (stateInv rpc P) (V1.getAgent tokenId).
Proof.
  intros s HI.
  destruct (lookupLive (V1.cacheKey tokenId) s ≫= asAgent) as [a|] eqn:Hlive.
  - by rewrite (V1_getAgent_hit _ _ _ Hlive).
  - rewrite (V1_getAgent_miss _ _ Hlive). simpl.
    assert (stateInv rpc P
              (afterAll (snd (getCache (V1.cacheKey tokenId) s))
                 (V1_reads tokenId))) as HI'
      by by apply Inv_afterAll, Inv_getCache.
    destruct (V1_assemble _ _ _) as [a|] eqn:Ha; [|done].
    apply Inv_insert; [|done].
    destruct HI as [Hrpc _]. rewrite Hrpc in Ha. by eapply assembled_P.
Qed.

Lemma V1_getAgent_result tokenId s a :
  stateInv rpc P s →
  fst (V1.getAgent tokenId s) = Return (Some a) →
  P (V1.cacheKey tokenId) (VAgent a).
Proof.
  intros [Hrpc Hall].
  destruct (lookupLive (V1.cacheKey tokenId) s ≫= asAgent) as [a'|] eqn:Hlive.
  - rewrite (V1_getAgent_hit _ _ _ Hlive). intros [= <-].
    apply lookupLive_agent in Hlive as (entry & Hentry & Hdata & _).
    rewrite <- Hdata. by apply Hall.
  - rewrite (V1_getAgent_miss _ _ Hlive), Hrpc. simpl. intros [= Ha].
    by eapply assembled_P.
Qed.

Lemma V1_session_invariant cs s :
  stateInv rpc P s → stateInv rpc P (V1.session cs s).
Proof.
  apply session_invariant; [done| |].
  - apply V1_getAgent_Preserves.
  - intros s' HI. rewrite V1_getTotalAgents_run. by apply Inv_after.
Qed.

End WithInvariant.

End GetAgentV1.

(** ** The cache is well typed

    [getCache<Agent>] and [getCache<ProtocolStats>] assert the type of
    what they find.  Along any session the assertion is right: agent
    records only sit under agent keys and statistics only under
    ["stats"], so that a lookup under an agent key that finds something
    live finds a record, and a lookup under ["stats"] finds statistics. *)

Lemma V2_session_wellTyped createPublicClient config t0 l0 cmds :
  cacheAll wellTyped
    (V2.session cmds (initial createPublicClient config t0 l0)).
Proof.
  apply (V2_session_invariant (createPublicClient (config ≫= config_rpcUrl))
           wellTyped); [done| |apply initial_invariant].
  intros l tokenId a _. by exists tokenId.
Qed.

Lemma V1_session_wellTyped createPublicClient config t0 l0 cmds :
  cacheAll wellTyped
    (V1.session cmds (initial createPublicClient config t0 l0)).
Proof.
  apply (V1_session_invariant (createPublicClient (config ≫= config_rpcUrl))
           wellTyped); [done| |apply initial_invariant].
  intros l tokenId a _. by exists tokenId.
Qed.

Lemma wellTyped_agent_lookup {Agent : Type} (s : State Agent) (tokenId : Z) v :
  cacheAll wellTyped s →
  lookupLive ("agent:" +:+ pretty tokenId) s = Some v →
  ∃ a, v = VAgent a.
Proof.
  intros Htyped Hlive.
  apply lookupLive_Some in Hlive as (entry & Hentry & <- & _).
  specialize (Htyped _ _ Hentry). destruct (data entry) as [a|p].
  - by exists a.
  - discriminate Htyped.
Qed.

Lemma wellTyped_stats_lookup {Agent : Type} (s : State Agent) v :
  cacheAll wellTyped s →
  lookupLive "stats" s = Some v →
  ∃ p, v = VStats p.
Proof.
  intros Htyped Hlive.
  apply lookupLive_Some in Hlive as (entry & Hentry & <- & _).
  specialize (Htyped _ _ Hentry). destruct (data entry) as [a|p].
  - destruct Htyped as [tokenId Hkey]. discriminate Hkey.
  - by exists p.
Qed.

(** Hence, along a session, a lookup under an agent key misses exactly
    when nothing live is under the key. *)
Lemma wellTyped_agent_miss {Agent : Type} (s : State Agent) (tokenId : Z) :
  cacheAll wellTyped s →
  lookupLive ("agent:" +:+ pretty tokenId) s ≫= asAgent = None
  ↔ lookupLive ("agent:" +:+ pretty tokenId) s = None.
Proof.
  intros Htyped. split; [|by intros ->].
  destruct (lookupLive _ s) as [v|] eqn:Hlive; [|done].
  destruct (wellTyped_agent_lookup s tokenId v Htyped Hlive) as [a ->].
  done.
Qed.

Lemma wellTyped_stats_miss {Agent : Type} (s : State Agent) :
  cacheAll wellTyped s →
  lookupLive "stats" s ≫= asStats = None ↔ lookupLive "stats" s = None.
Proof.
  intros Htyped. split; [|by intros ->].
  destruct (lookupLive _ s) as [v|] eqn:Hlive; [|done].
  destruct (wellTyped_stats_lookup s v Htyped Hlive) as [p ->].
  done.
Qed.

(** ** Trust levels *)

Lemma filter_nonempty_existsb {A} (f : A → bool) (l : list A) :
  (0 <? List.length (List.filter f l))%nat = existsb f l.
Proof.
  induction l as [|x l IH]; [done|]. simpl.
  destruct (f x); [done | apply IH].
Qed.

Lemma existsb_copyLicense (l : list LicenseTuple) :
  existsb V1.active (List.map V1.copyLicense l) = existsb tup_active l.
Proof.
  induction l as [|x l IH]; [done|]. simpl. by rewrite IH.
Qed.

Lemma V2_assemble_trust rpc l tokenId a :
  V2_assemble rpc l tokenId = Some a →
  V2.trustLevel a
  = if V2.isVerified a
    then match V2.licenses a with [] => Level1 | _ :: _ => Level2 end
    else Level0.
Proof.
  unfold V2_assemble.
  destruct (respond rpc l _) as [[[[name agentType] owner] birthBlock]|e];
    [|done].
  intros [= <-]. simpl. unfold V2.determineTrustLevel.
  destruct (orElse _ false); [|done].
  by destruct (licensesFrom _ _ _ _ _ _).
Qed.

Lemma V1_assemble_trust rpc l tokenId a :
  V1_assemble rpc l tokenId = Some a →
  V1.trustLevel a
  = if existsb V1.active (V1.licenses a) then Level2
    else if String.eqb (V1.humanPrincipal a) V1.zeroAddress then Level0
    else Level1.
Proof.
  unfold V1_assemble.
  destruct (respond rpc l _) as [record|e]; [|done].
  destruct (respond rpc _ (Registry_ownerOf _)) as [owner|e]; [|done].
  destruct (respond rpc _ (Registry_tokenURI _)) as [tokenURI|e]; [|done].
  intros [= <-]. simpl. unfold V1.computeTrustLevel.
  rewrite existsb_copyLicense, filter_nonempty_existsb.
  destruct (existsb _ _); [done|]. by destruct (String.eqb _ _).
Qed.

(** C1, as amended.  Take a client just built, let its caller do anything,
    and resolve a record.  In the V1 client the trust level is 2 as soon
    as one license of the record is active, whatever the human principal;
    failing that it is 1 when the human principal is not the zero address,
    and 0 otherwise.  In the V2 client, whose licenses carry no [active]
    flag, the trust level is 2 only when the record is verified and has a
    license; a verified record without license has level 1; a record that
    is not verified has level 0, whatever its licenses. *)
Theorem trustLevel_rule (createPublicClient : option string → Remote)
    (config : option OriginConfig) (t0 : Z) (l0 : list Call) (tokenId : Z) :
  (∀ (cmds : list Command) (a : V1.Agent),
     fst (V1.getAgent tokenId
            (V1.session cmds (initial createPublicClient config t0 l0)))
     = Return (Some a) →
     V1.trustLevel a
     = if existsb V1.active (V1.licenses a) then Level2
       else if String.eqb (V1.humanPrincipal a) V1.zeroAddress then Level0
       else Level1) ∧
  (∀ (cmds : list Command) (a : V2.Agent),
     fst (V2.getAgent tokenId
            (V2.session cmds (initial createPublicClient config t0 l0)))
     = Return (Some a) →
     V2.trustLevel a
     = if V2.isVerified a
       then match V2.licenses a with [] => Level1 | _ :: _ => Level2 end
       else Level0).
Proof.
  set (rpc := createPublicClient (config ≫= config_rpcUrl)).
  split; intros cmds a Hget.
  - pose (P := λ (_ : string) (a : V1.Agent),
        V1.trustLevel a
        = if existsb V1.active (V1.licenses a) then Level2
          else if String.eqb (V1.humanPrincipal a) V1.zeroAddress
               then Level0 else Level1).
    change (onAgents P (V1.cacheKey tokenId) (VAgent a)).
    apply (V1_getAgent_result rpc (onAgents P)) with
      (s := V1.session cmds (initial createPublicClient config t0 l0));
      [|apply V1_session_invariant; [done| |apply initial_invariant]
       |exact Hget];
      intros l t a'; apply V1_assemble_trust.
  - pose (P := λ (_ : string) (a : V2.Agent),
        V2.trustLevel a
        = if V2.isVerified a
          then match V2.licenses a with [] => Level1 | _ :: _ => Level2 end
          else Level0).
    change (onAgents P (V2.cacheKey tokenId) (VAgent a)).
    apply (V2_getAgent_result rpc (onAgents P)) with
      (s := V2.session cmds (initial createPublicClient config t0 l0));
      [|apply V2_session_invariant; [done| |apply initial_invariant]
       |exact Hget];
      intros l t a'; apply V2_assemble_trust.
Qed.

(** In the sample registry certificate 2 carries a license and is not
    verified: the V1 client, and the V2 client after some traffic, resolve
    it with the levels the rule gives. *)
Lemma trustLevel_rule_witness :
  (fst (V1.getAgent 2
          (V1.session [DoGetStats; DoGetAgent 2]
             (initial sampleClient None 1000 [])))
   = Return (Some sampleAgentV1) ∧
   V1.trustLevel sampleAgentV1 = Level2) ∧
  (fst (V2.getAgent 2
          (V2.session [DoIsRegistered addressX; Wait 5]
             (initial sampleClient None 1000 [])))
   = Return (Some sampleAgent) ∧
   V2.trustLevel sampleAgent = Level0).
Proof.
  split.
  - split; [vm_compute; reflexivity|].
    apply (proj1 (trustLevel_rule sampleClient None 1000 [] 2)
             [DoGetStats; DoGetAgent 2] sampleAgentV1).
    vm_compute; reflexivity.
  - split; [vm_compute; reflexivity|].
    apply (proj2 (trustLevel_rule sampleClient None 1000 [] 2)
             [DoIsRegistered addressX; Wait 5] sampleAgent).
    vm_compute; reflexivity.
Defined.

(** C1 as stated fails on the V2 client: the record resolved for
    certificate 2 of the sample registry has a license, and level 0. *)
Lemma trustLevel_rule_counterexample :
  ∃ a : V2.Agent,
    fst (V2.getAgent 2 sampleState) = Return (Some a) ∧
    V2.licenses a = [sampleLicense] ∧
    V2.isVerified a = false ∧
    TrustLevel_value (V2.trustLevel a) = 0%Z ∧
    TrustLevel_value (V2.trustLevel a) ≠ 2%Z.
Proof. exists sampleAgent. vm_compute. repeat split; discriminate. Qed.

(** ** Failures and the caller *)

Lemma getCache_answer {Agent : Type} key (s : State Agent) c :
  answer (snd (getCache key s)) c = answer s c.
Proof.
  destruct (getCache_state key s) as (Hclient & _ & _ & Hlog & _).
  unfold answer. by rewrite Hclient, Hlog.
Qed.

Lemma V2_findAgentByOwner_Throw address (s : State V2.Agent) e :
  fst (V2.findAgentByOwner address s) = Throw e
  ↔ answer s Registry_totalRegistered = Fail e.
Proof.
  unfold V2.findAgentByOwner.
  rewrite findAgentByOwner_Throw by apply V2_getAgent_NoThrow.
  rewrite V2_getTotalRegistered_run.
  destruct (answer s _); simpl; split; intros [= Heq]; by subst.
Qed.

Lemma V1_findAgentByOwner_Throw address (s : State V1.Agent) e :
  fst (V1.findAgentByOwner address s) = Throw e
  ↔ answer s RegistryV1_totalAgents = Fail e.
Proof.
  unfold V1.findAgentByOwner.
  rewrite findAgentByOwner_Throw by apply V1_getAgent_NoThrow.
  rewrite V1_getTotalAgents_run.
  destruct (answer s _); simpl; split; intros [= Heq]; by subst.
Qed.

Lemma V2_getStats_Throw (s : State V2.Agent) e :
  fst (V2.getStats s) = Throw e
  ↔ lookupLive "stats" s ≫= asStats = None ∧
    answer s Registry_totalRegistered = Fail e.
Proof.
  unfold V2.getStats. rewrite getStats_Throw, V2_getTotalRegistered_run.
  rewrite getCache_answer.
  destruct (answer s _); simpl;
    (split; intros [Hmiss [= Heq]]); by subst.
Qed.

Lemma V1_getStats_Throw (s : State V1.Agent) e :
  fst (V1.getStats s) = Throw e
  ↔ lookupLive "stats" s ≫= asStats = None ∧
    answer s RegistryV1_totalAgents = Fail e.
Proof.
  unfold V1.getStats. rewrite getStats_Throw, V1_getTotalAgents_run.
  rewrite getCache_answer.
  destruct (answer s _); simpl;
    (split; intros [Hmiss [= Heq]]); by subst.
Qed.

(** C2, as amended.  [verifyAgent], [verifyAgentById], [isRegistered],
    [hasClaimed] and [getAgent] return in every state, whatever the
    gateway answers; a verification result is either positive, with the
    record and its trust level, or negative with trust level 0, no record
    and an error message.  The three other operations let the failure of
    one read through: [findAgentByOwner] throws exactly when the read of
    the total fails, [getStats] exactly when the cache holds no live
    statistics and the read of the total fails, [getClamsBalance] exactly
    when the balance read fails; what is thrown is what the read threw. *)
Theorem public_operations_failures (address : string) (tokenId : Z) :
  ((NoThrow (V2.verifyAgent address) ∧
    NoThrow (V2.verifyAgentById tokenId) ∧
    NoThrow (Agent := V2.Agent) (isRegistered address) ∧
    NoThrow (Agent := V2.Agent) (hasClaimed address) ∧
    NoThrow (V2.getAgent tokenId)) ∧
   (∀ s r, fst (V2.verifyAgent address s) = Return r →
           wellShaped V2.trustLevel r) ∧
   (∀ s r, fst (V2.verifyAgentById tokenId s) = Return r →
           wellShaped V2.trustLevel r) ∧
   (∀ s e, fst (V2.findAgentByOwner address s) = Throw e
           ↔ answer s Registry_totalRegistered = Fail e) ∧
   (∀ s e, fst (V2.getStats s) = Throw e
           ↔ lookupLive "stats" s ≫= asStats = None ∧
             answer s Registry_totalRegistered = Fail e) ∧
   (∀ (s : State V2.Agent) e,
       fst (getClamsBalance address s) = Throw e
       ↔ answer s (Clams_balanceOf address) = Fail e)) ∧
  ((NoThrow (V1.verifyAgent address) ∧
    NoThrow (V1.verifyAgentById tokenId) ∧
    NoThrow (Agent := V1.Agent) (isRegistered address) ∧
    NoThrow (Agent := V1.Agent) (hasClaimed address) ∧
    NoThrow (V1.getAgent tokenId)) ∧
   (∀ s r, fst (V1.verifyAgent address s) = Return r →
           wellShaped V1.trustLevel r) ∧
   (∀ s r, fst (V1.verifyAgentById tokenId s) = Return r →
           wellShaped V1.trustLevel r) ∧
   (∀ s e, fst (V1.findAgentByOwner address s) = Throw e
           ↔ answer s RegistryV1_totalAgents = Fail e) ∧
   (∀ s e, fst (V1.getStats s) = Throw e
           ↔ lookupLive "stats" s ≫= asStats = None ∧
             answer s RegistryV1_totalAgents = Fail e) ∧
   (∀ (s : State V1.Agent) e,
       fst (getClamsBalance address s) = Throw e
       ↔ answer s (Clams_balanceOf address) = Fail e)).
Proof.
  split.
  - split; [|split; [|split; [|split; [|split]]]].
    + split; [apply verifyAgent_NoThrow|].
      split; [apply verifyAgentById_NoThrow|].
      split; [apply isRegistered_NoThrow|].
      split; [apply hasClaimed_NoThrow | apply V2_getAgent_NoThrow].
    + intros s r. apply verifyAgent_wellShaped.
    + intros s r. apply verifyAgentById_wellShaped.
    + intros s e. apply V2_findAgentByOwner_Throw.
    + intros s e. apply V2_getStats_Throw.
    + intros s e. apply getClamsBalance_Throw.
  - split; [|split; [|split; [|split; [|split]]]].
    + split; [apply verifyAgent_NoThrow|].
      split; [apply verifyAgentById_NoThrow|].
      split; [apply isRegistered_NoThrow|].
      split; [apply hasClaimed_NoThrow | apply V1_getAgent_NoThrow].
    + intros s r. apply verifyAgent_wellShaped.
    + intros s r. apply verifyAgentById_wellShaped.
    + intros s e. apply V1_findAgentByOwner_Throw.
    + intros s e. apply V1_getStats_Throw.
    + intros s e. apply getClamsBalance_Throw.
Qed.

(** C2 as stated fails: with the endpoint down [getStats] and
    [findAgentByOwner] throw, and [getClamsBalance] throws on the sample
    registry, whose balance read is refused. *)
Lemma public_operations_failures_counterexample :
  fst (V2.getStats deadState) = Throw (ErrorObj "network down") ∧
  fst (V2.findAgentByOwner addressX deadState)
  = Throw (ErrorObj "network down") ∧
  fst (getClamsBalance addressX sampleState)
  = Throw (ErrorObj "rate limited").
Proof. vm_compute. done. Qed.

(** ** [verifyAgent] on an address without certificate *)

(** C6, as amended.  When the ownership-count read returns zero,
    [verifyAgent] returns [verified: false], trust level 0, no record and
    the error message ["No Birth Certificate found for this address"]; it
    has made that one read and nothing else: no probe, no change to the
    client or its cache. *)
Theorem verifyAgent_no_certificate {Agent : Type}
    (agent_trustLevel : Agent → TrustLevel)
    (getAgent : Z → M Agent (option Agent)) (getTotalRegistered : M Agent Z)
    (address : string) (s : State Agent) :
  answer s (Registry_balanceOf address) = Ok 0%N →
  let run := verifyAgent agent_trustLevel getAgent getTotalRegistered
               address s in
  fst run = Return {| verified := false; trustLevel := Level0; agent := None;
                      error := Some "No Birth Certificate found for this address"%string |} ∧
  log (snd run) = log s ++ [Registry_balanceOf address] ∧
  this (snd run) = this s.
Proof.
  intros Hzero. cbn zeta. unfold verifyAgent, try_catch, bind.
  rewrite readContract_run, Hzero. done.
Qed.

Lemma verifyAgent_no_certificate_witness :
  answer sampleState (Registry_balanceOf addressY) = Ok 0%N ∧
  fst (V2.verifyAgent addressY sampleState)
  = Return (notVerified "No Birth Certificate found for this address") ∧
  log (snd (V2.verifyAgent addressY sampleState))
  = [Registry_balanceOf addressY].
Proof.
  split; [vm_compute; reflexivity|].
  destruct (verifyAgent_no_certificate V2.trustLevel V2.getAgent
              V2.getTotalRegistered addressY sampleState) as (Hres & Hlog & _);
    [vm_compute; reflexivity|].
  split; [exact Hres | exact Hlog].
Defined.

(** C6 as stated fails on the wording of the message: the one returned
    does not contain ["not registered"]. *)
Lemma verifyAgent_no_certificate_counterexample :
  answer sampleState (Registry_balanceOf addressY) = Ok 0%N ∧
  ∃ r msg,
    fst (V2.verifyAgent addressY sampleState) = Return r ∧
    verified r = false ∧ agent r = None ∧
    error r = Some msg ∧
    includes msg "not registered" = false.
Proof.
  split; [vm_compute; reflexivity|].
  exists (notVerified "No Birth Certificate found for this address").
  eexists. vm_compute. done.
Qed.

(** ** The formatted supply *)

Arguments formatUnits : simpl never.

(** C9.  When [getStats] finds no live statistics in the cache, the read
    of the total succeeds and the total-supply read returns
    [1000000 * 10^18] base units, the statistics returned have
    [totalClamsSupply] equal to ["1000000"]. *)
Theorem getStats_totalClamsSupply {Agent : Type}
    (getTotalRegistered : M Agent Z) (s s1 : State Agent) (total : Z) :
  lookupLive "stats" s ≫= asStats = None →
  getTotalRegistered (snd (getCache "stats" s)) = (Return total, s1) →
  respond (client (this s1)) (log s1 ++ [Faucet_totalClaims])
    Clams_totalSupply = Ok (1000000 * 10 ^ 18)%N →
  formatUnits (1000000 * 10 ^ 18) 18 = "1000000"%string ∧
  ∃ stats, fst (getStats getTotalRegistered s) = Return stats ∧
           totalRegistered stats = total ∧
           totalClamsSupply stats = "1000000"%string.
Proof.
  intros Hmiss Htotal Hsupply. split; [vm_compute; reflexivity|].
  unfold getStats. unfold bind at 1. rewrite getCache_run, Hmiss.
  unfold bind, Promise_all, try_catch, readContract, setCache, ret.
  rewrite Htotal.
  destruct (respond _ _ Faucet_totalClaims); simpl; rewrite Hsupply; simpl;
    eexists; (split; [reflexivity|]);
    (split; [done | vm_compute; reflexivity]).
Qed.

Lemma getStats_totalClamsSupply_witness :
  ∃ stats, fst (V2.getStats sampleState) = Return stats ∧
           totalRegistered stats = 3%Z ∧
           totalClamsSupply stats = "1000000"%string.
Proof.
  apply (getStats_totalClamsSupply V2.getTotalRegistered sampleState
           (after sampleState Registry_totalRegistered) 3);
    vm_compute; reflexivity.
Defined.

(** ** The license loop *)

Section LicenseLoop.

Implicit Types (s : State V2.Agent) (tokenId : Z).

(** The loop keeps what it has read when a read fails: if the reads of
    the indices [i], ..., [i + length lics - 1] answer [lics] and the next
    one, still within the count, fails, the loop returns the licenses it
    started with followed by those of [lics], and has made exactly these
    reads. *)
Lemma V2_fetchLicenses_prefix tokenId e
    (lics : list (string * string * N)) : ∀ (n : nat) i licenses s,
  (List.length lics < n)%nat →
  (∀ (j : nat) lic, lics !! j = Some lic →
     respond (client (this s)) (log s ++ licenseReads tokenId i j)
       (Registry_getLicense tokenId (i + Z.of_nat j)) = Ok lic) →
  respond (client (this s))
    (log s ++ licenseReads tokenId i (List.length lics))
    (Registry_getLicense tokenId (i + Z.of_nat (List.length lics))) = Fail e →
  V2.fetchLicenses tokenId n i licenses s
  = (Return (licenses ++ List.map toLicense lics),
     afterAll s (licenseReads tokenId i (S (List.length lics)))).
Proof.
  induction lics as [|lic lics IH]; intros n i licenses s Hlen Hok Hfail.
  - destruct n as [|n]; [simpl in Hlen; lia|].
    simpl in Hfail. rewrite app_nil_r, Z.add_0_r in Hfail.
    simpl. unfold bind, try_catch. rewrite readContract_run.
    unfold answer. rewrite Hfail. simpl. by rewrite app_nil_r.
  - destruct n as [|n]; [simpl in Hlen; lia|].
    assert (Hhead := Hok 0%nat lic eq_refl).
    simpl in Hhead. rewrite app_nil_r, Z.add_0_r in Hhead.
    change (V2.fetchLicenses tokenId (S n) i licenses s)
      with (bind
              (try_catch
                 (let* lic := readContract (Registry_getLicense tokenId i) in
                  let '(lic0, lic1, lic2) := lic in
                  ret (Some {| V2.license_type := lic0;
                               V2.license_id := lic1;
                               V2.issuedAt := Z.of_N lic2 |}))
                 (λ _, ret None))
              (λ step,
                 match step with
                 | Some l =>
                     V2.fetchLicenses tokenId n (i + 1)%Z (licenses ++ [l])
                 | None => ret licenses
                 end) s).
    unfold bind at 1. unfold try_catch, bind at 1. rewrite readContract_run.
    unfold answer. rewrite Hhead. destruct lic as [[lic0 lic1] lic2].
    cbn [fst snd ret].
    rewrite (IH n (i + 1)%Z); [| simpl in Hlen; lia | |].
    + simpl. by rewrite <- app_assoc.
    + intros j lic' Hj. rewrite after_this, after_log, <- app_assoc.
      specialize (Hok (S j) lic' Hj). simpl in Hok.
      replace (i + 1 + Z.of_nat j)%Z with (i + Z.pos (Pos.of_succ_nat j))%Z
        by lia.
      exact Hok.
    + rewrite after_this, after_log, <- app_assoc.
      simpl in Hfail.
      replace (i + 1 + Z.of_nat (List.length lics))%Z
        with (i + Z.pos (Pos.of_succ_nat (List.length lics)))%Z by lia.
      exact Hfail.
Qed.

End LicenseLoop.

(** C10.  In the V2 client, let [getAgent] find no live record in the
    cache, the record read succeed and the license count be [count].  If
    the reads of the licenses 0, ..., j - 1 succeed with [lics] and the
    read of license j fails, with j below the count, then assembly
    completes: the record returned carries exactly the licenses of [lics],
    in this order (neither the empty list nor absent); the loop made the
    j + 1 reads up to the failing index and no further one; the record is
    stored in the cache under the key of the identifier. *)
Theorem getAgent_license_prefix (tokenId : Z) (s : State V2.Agent)
    (agentData : string * string * string * N) (count : N)
    (lics : list (string * string * N)) (e : Thrown) :
  let rpc := client (this s) in
  let l3 := log s ++ [Registry_getAgent tokenId; Registry_isVerified tokenId;
                      Registry_getLineage tokenId] in
  let l5 := log s ++ V2_reads tokenId in
  let j := List.length lics in
  lookupLive (V2.cacheKey tokenId) s ≫= asAgent = None →
  respond rpc (log s) (Registry_getAgent tokenId) = Ok agentData →
  respond rpc l3 (Registry_getLicenseCount tokenId) = Ok count →
  (j < N.to_nat count)%nat →
  (∀ (i : nat) lic, lics !! i = Some lic →
     respond rpc (l5 ++ licenseReads tokenId 0 i)
       (Registry_getLicense tokenId (Z.of_nat i)) = Ok lic) →
  respond rpc (l5 ++ licenseReads tokenId 0 j)
    (Registry_getLicense tokenId (Z.of_nat j)) = Fail e →
  let s' := snd (V2.getAgent tokenId s) in
  ∃ a : V2.Agent,
    fst (V2.getAgent tokenId s) = Return (Some a) ∧
    V2.licenses a = List.map toLicense lics ∧
    log s' = l5 ++ licenseReads tokenId 0 (S j) ∧
    cache (this s') !! V2.cacheKey tokenId
    = Some {| data := VAgent a;
              expiresAt := (now s' + cacheTtl (this s))%Z |}.
Proof.
  cbn zeta. intros Hmiss Hcore Hcount Hlt Hok Hfail.
  destruct (getCache_state (V2.cacheKey tokenId) s)
    as (Hclient & Httl & _ & Hlog & _).
  assert (∃ a s2,
            V2.getAgent tokenId s
            = (Return (Some a),
               set_cache
                 (insert (V2.cacheKey tokenId)
                    {| data := VAgent a;
                       expiresAt := (now s2 + cacheTtl (this s))%Z |}) s2) ∧
            V2.licenses a = List.map toLicense lics ∧
            log s2 = (log s ++ V2_reads tokenId)
                     ++ licenseReads tokenId 0 (S (List.length lics)))
    as (a & s2 & Hrun & Hlics & Hlog2).
  { unfold V2.getAgent. unfold bind at 1. rewrite getCache_run, Hmiss.
    set (s1 := snd (getCache (V2.cacheKey tokenId) s)) in *.
    unfold try_catch. unfold bind at 1. rewrite V2_fetchAll_run.
    rewrite Hclient, Hlog, Hcore.
    destruct agentData as [[[name agentType] owner] birthBlock].
    rewrite <- !app_assoc. simpl app. simpl in Hcount. rewrite Hcount.
    unfold bind at 1. simpl orElse at 3.
    rewrite (V2_fetchLicenses_prefix tokenId e lics).
    - unfold bind, setCache, ret. simpl fst. simpl snd.
      rewrite !afterAll_this, Httl.
      eexists. eexists. split; [reflexivity|]. split; [done|].
      rewrite !afterAll_log, Hlog, <- app_assoc. reflexivity.
    - simpl orElse. lia.
    - intros i lic Hi. rewrite afterAll_this, afterAll_log, Hclient, Hlog.
      rewrite Z.add_0_l. by apply Hok.
    - rewrite afterAll_this, afterAll_log, Hclient, Hlog, Z.add_0_l.
      exact Hfail. }
  exists a. rewrite Hrun. simpl.
  split; [done|]. split; [done|]. split; [done|].
  by rewrite lookup_insert_eq.
Qed.

Lemma getAgent_license_prefix_witness :
  ∃ a : V2.Agent,
    fst (V2.getAgent 2 sampleState) = Return (Some a) ∧
    V2.licenses a = [sampleLicense] ∧
    log (snd (V2.getAgent 2 sampleState))
    = V2_reads 2 ++ [Registry_getLicense 2 0; Registry_getLicense 2 1] ∧
    cache (this (snd (V2.getAgent 2 sampleState))) !! "agent:2"%string
    = Some {| data := VAgent a; expiresAt := 31140 |}.
Proof.
  apply (getAgent_license_prefix 2 sampleState
           ("Suppi"%string, "guardian"%string, addressX, 100%N) 2
           [("MLO"%string, "154083"%string, 1700000000%N)]
           (ErrorObj "execution reverted")).
  - vm_compute; reflexivity.
  - vm_compute; reflexivity.
  - vm_compute; reflexivity.
  - vm_compute; lia.
  - intros [|i] lic Hi.
    + injection Hi as <-. vm_compute; reflexivity.
    + discriminate.
  - vm_compute; reflexivity.
Defined.

(** ** Fault tolerance of the assembler *)

(** C4, as amended.  A [getAgent] that finds a live record in the cache
    returns it and reads nothing.  Otherwise:
    - in the V2 client, when the record read fails the result is absent;
      when it succeeds a complete record is returned, made of the fields
      read, with [false] for a verification flag that could not be read,
      zero lineage for a lineage that could not be read, the empty string
      for a URI that could not be read and no license when the license
      count could not be read (what a failing per-index license read does
      is the matter of C10);
    - in the V1 client, when the record read, the ownership read or the
      URI read fails the result is absent; when the three succeed a
      complete record is returned, with no license when the license read
      failed;
    - a record returned is stored under the key of the identifier, and
      when the result is absent nothing is stored: the cache is the one
      the initial lookup left, that is the one found less, possibly, an
      expired entry under the key. *)
Theorem getAgent_fault_tolerance (tokenId : Z) :
  (∀ (s : State V2.Agent) a,
     lookupLive (V2.cacheKey tokenId) s ≫= asAgent = Some a →
     V2.getAgent tokenId s = (Return (Some a), s)) ∧
  (∀ s : State V2.Agent,
     lookupLive (V2.cacheKey tokenId) s ≫= asAgent = None →
     let rpc := client (this s) in
     let l1 := log s ++ [Registry_getAgent tokenId] in
     let l2 := l1 ++ [Registry_isVerified tokenId] in
     let l3 := l2 ++ [Registry_getLineage tokenId] in
     let l4 := l3 ++ [Registry_getLicenseCount tokenId] in
     let s' := snd (V2.getAgent tokenId s) in
     let left := cache (this (snd (getCache (V2.cacheKey tokenId) s))) in
     (left = cache (this s) ∨
      left = delete (V2.cacheKey tokenId) (cache (this s))) ∧
     match respond rpc (log s) (Registry_getAgent tokenId) with
     | Fail _ =>
         fst (V2.getAgent tokenId s) = Return None ∧ cache (this s') = left
     | Ok (name, agentType, owner, birthBlock) =>
         ∃ a : V2.Agent,
           fst (V2.getAgent tokenId s) = Return (Some a) ∧
           cache (this s')
           = <[V2.cacheKey tokenId :=
                 {| data := VAgent a;
                    expiresAt := (now s' + cacheTtl (this s))%Z |}]> left ∧
           V2.id a = tokenId ∧ V2.name a = name ∧
           V2.agentType a = agentType ∧ V2.owner a = owner ∧
           V2.birthBlock a = Z.of_N birthBlock ∧
           V2.isVerified a
           = orElse (respond rpc l1 (Registry_isVerified tokenId)) false ∧
           V2.lineage a
           = (let lineage :=
                orElse (respond rpc l2 (Registry_getLineage tokenId))
                  (0%N, 0%N) in
              {| V2.parentId := Z.of_N (fst lineage);
                 V2.depth := Z.of_N (snd lineage) |}) ∧
           V2.tokenURI a
           = orElse (respond rpc l4 (Registry_tokenURI tokenId)) ""%string ∧
           (∀ e, respond rpc l3 (Registry_getLicenseCount tokenId) = Fail e →
                 V2.licenses a = [])
     end) ∧
  (∀ (s : State V1.Agent) a,
     lookupLive (V1.cacheKey tokenId) s ≫= asAgent = Some a →
     V1.getAgent tokenId s = (Return (Some a), s)) ∧
  (∀ s : State V1.Agent,
     lookupLive (V1.cacheKey tokenId) s ≫= asAgent = None →
     let rpc := client (this s) in
     let l1 := log s ++ [RegistryV1_getAgent tokenId] in
     let l2 := l1 ++ [RegistryV1_getLicenses tokenId] in
     let l3 := l2 ++ [Registry_ownerOf tokenId] in
     let s' := snd (V1.getAgent tokenId s) in
     let left := cache (this (snd (getCache (V1.cacheKey tokenId) s))) in
     (left = cache (this s) ∨
      left = delete (V1.cacheKey tokenId) (cache (this s))) ∧
     match respond rpc (log s) (RegistryV1_getAgent tokenId),
           respond rpc l2 (Registry_ownerOf tokenId),
           respond rpc l3 (Registry_tokenURI tokenId) with
     | Ok record, Ok owner, Ok tokenURI =>
         ∃ a : V1.Agent,
           fst (V1.getAgent tokenId s) = Return (Some a) ∧
           cache (this s')
           = <[V1.cacheKey tokenId :=
                 {| data := VAgent a;
                    expiresAt := (now s' + cacheTtl (this s))%Z |}]> left ∧
           V1.id a = tokenId ∧ V1.name a = rec_name record ∧
           V1.owner a = owner ∧ V1.tokenURI a = tokenURI ∧
           V1.humanPrincipal a = rec_humanPrincipal record ∧
           V1.licenses a
           = List.map V1.copyLicense
               (orElse (respond rpc l1 (RegistryV1_getLicenses tokenId)) [])
     | _, _, _ =>
         fst (V1.getAgent tokenId s) = Return None ∧ cache (this s') = left
     end).
Proof.
  split; [intros s a; apply V2_getAgent_hit|].
  split; [|split; [intros s a; apply V1_getAgent_hit|]].
  - intros s Hmiss. cbn zeta.
    destruct (getCache_state (V2.cacheKey tokenId) s)
      as (_ & _ & _ & _ & Hleft).
    split; [exact Hleft|].
    destruct (V2_getAgent_miss _ _ Hmiss) as [cs Hrun]. cbn zeta in Hrun.
    rewrite Hrun. unfold V2_assemble.
    destruct (respond _ (log s) _)
      as [[[[name agentType] owner] birthBlock]|e].
    + eexists. split; [reflexivity|]. simpl.
      rewrite !afterAll_this.
      repeat (split; [reflexivity|]).
      intros e Hcount. by rewrite Hcount.
    + simpl. by rewrite afterAll_this.
  - intros s Hmiss. cbn zeta.
    destruct (getCache_state (V1.cacheKey tokenId) s)
      as (_ & _ & _ & _ & Hleft).
    split; [exact Hleft|].
    rewrite (V1_getAgent_miss _ _ Hmiss). unfold V1_assemble.
    destruct (respond _ (log s) _) as [record|e];
      [destruct (respond _ _ (Registry_ownerOf tokenId)) as [owner|e];
       [destruct (respond _ _ (Registry_tokenURI tokenId)) as [tokenURI|e]|]|];
      simpl; rewrite ?afterAll_this; try done.
    eexists. split; [reflexivity|]. done.
Qed.

(** On the sample registry the lineage of certificate 2 cannot be read
    and the record read succeeds: the record is returned, with zero
    lineage. *)
Lemma getAgent_fault_tolerance_witness :
  lookupLive (V2.cacheKey 2) sampleState ≫= asAgent = None ∧
  ∃ a : V2.Agent,
    fst (V2.getAgent 2 sampleState) = Return (Some a) ∧
    V2.isVerified a = false ∧
    V2.lineage a = {| V2.parentId := 0; V2.depth := 0 |}.
Proof.
  split; [vm_compute; reflexivity|].
  destruct (proj1 (proj2 (getAgent_fault_tolerance 2)) sampleState)
    as [_ Hrun]; [vm_compute; reflexivity|].
  vm_compute in Hrun.
  destruct Hrun as (a & Ha & _ & _ & _ & _ & _ & _ & Hverified & Hlineage & _).
  exists a. split; [vm_compute; exact Ha|]. split; assumption.
Defined.

(** C4 as stated fails twice.  On the sample registry the read of the
    second license of certificate 2 fails, and the record returned keeps
    the first license instead of the empty list.  On the client of the
    flaky endpoint, whose cache holds an expired record of certificate 2,
    the record read fails, the result is absent, and the cache has lost
    that entry. *)
Lemma getAgent_fault_tolerance_counterexample :
  (respond sampleRegistry (V2_reads 2 ++ [Registry_getLicense 2 0])
     (Registry_getLicense 2 1) = reverted ∧
   ∃ a : V2.Agent,
     fst (V2.getAgent 2 sampleState) = Return (Some a) ∧
     V2.licenses a = [sampleLicense] ∧ V2.licenses a ≠ []) ∧
  (respond flakyRegistry (log staleState) (Registry_getAgent 2)
   = Fail (ErrorObj "network down") ∧
   is_Some (cache (this staleState) !! "agent:2"%string) ∧
   fst (V2.getAgent 2 staleState) = Return None ∧
   cache (this (snd (V2.getAgent 2 staleState))) !! "agent:2"%string = None ∧
   cache (this (snd (V2.getAgent 2 staleState))) ≠ cache (this staleState)).
Proof.
  split.
  - split; [reflexivity|]. exists sampleAgent.
    split; [vm_compute; reflexivity|]. split; [reflexivity | discriminate].
  - split; [vm_compute; reflexivity|].
    assert (is_Some (cache (this staleState) !! "agent:2"%string)) as Hsome
      by (vm_compute; eauto).
    assert (cache (this (snd (V2.getAgent 2 staleState))) !! "agent:2"%string
            = None) as Hnone by (vm_compute; reflexivity).
    split; [exact Hsome|]. split; [vm_compute; reflexivity|].
    split; [exact Hnone|].
    intros Heq. rewrite Heq in Hnone. destruct Hsome as [entry Hentry].
    congruence.
Qed.

(** ** Resolution after [clearCache] *)

Lemma V2_cacheKey_inj tokenId tokenId' :
  V2.cacheKey tokenId = V2.cacheKey tokenId' → tokenId = tokenId'.
Proof.
  unfold V2.cacheKey. intros Heq.
  apply (inj (String.app "agent:")) in Heq. by apply (inj pretty) in Heq.
Qed.

Lemma V1_cacheKey_inj tokenId tokenId' :
  V1.cacheKey tokenId = V1.cacheKey tokenId' → tokenId = tokenId'.
Proof.
  unfold V1.cacheKey. intros Heq.
  apply (inj (String.app "agent:")) in Heq. by apply (inj pretty) in Heq.
Qed.

Lemma licensesFrom_stable rpc tokenId :
  stableV2 rpc tokenId →
  ∀ n i licenses l l',
    licensesFrom rpc l tokenId n i licenses
    = licensesFrom rpc l' tokenId n i licenses.
Proof.
  intros Hstable. induction n as [|n IH]; intros i licenses l l'; [done|].
  simpl. rewrite (Hstable l l') by (right; by eexists).
  destruct (respond rpc l' _) as [[[lic0 lic1] lic2]|e]; [|done].
  apply IH.
Qed.

Lemma V2_assemble_stable rpc tokenId l :
  stableV2 rpc tokenId →
  V2_assemble rpc l tokenId = V2_assemble rpc [] tokenId.
Proof.
  intros Hstable. unfold V2_assemble.
  rewrite (Hstable l []) by (left; unfold V2_reads; set_solver).
  destruct (respond rpc [] _) as [[[[name agentType] owner] birthBlock]|e];
    [|done].
  cbn zeta.
  rewrite (Hstable (l ++ _) ([] ++ [Registry_getAgent tokenId])
             (Registry_isVerified tokenId))
    by (left; unfold V2_reads; set_solver).
  rewrite (Hstable ((l ++ _) ++ _)
             (([] ++ [Registry_getAgent tokenId])
              ++ [Registry_isVerified tokenId])
             (Registry_getLineage tokenId))
    by (left; unfold V2_reads; set_solver).
  rewrite (Hstable (((l ++ _) ++ _) ++ _)
             ((([] ++ [Registry_getAgent tokenId])
               ++ [Registry_isVerified tokenId])
              ++ [Registry_getLineage tokenId])
             (Registry_getLicenseCount tokenId))
    by (left; unfold V2_reads; set_solver).
  rewrite (Hstable ((((l ++ _) ++ _) ++ _) ++ _)
             (((([] ++ [Registry_getAgent tokenId])
                ++ [Registry_isVerified tokenId])
               ++ [Registry_getLineage tokenId])
              ++ [Registry_getLicenseCount tokenId])
             (Registry_tokenURI tokenId))
    by (left; unfold V2_reads; set_solver).
  by rewrite (licensesFrom_stable rpc tokenId Hstable _ _ _
                (l ++ V2_reads tokenId) ([] ++ V2_reads tokenId)).
Qed.

Lemma V1_assemble_stable rpc tokenId l :
  stableV1 rpc tokenId →
  V1_assemble rpc l tokenId = V1_assemble rpc [] tokenId.
Proof.
  intros Hstable. unfold V1_assemble. cbn zeta.
  rewrite (Hstable l [] (RegistryV1_getAgent tokenId))
    by (unfold V1_reads; set_solver).
  rewrite (Hstable (l ++ _) ([] ++ [RegistryV1_getAgent tokenId])
             (RegistryV1_getLicenses tokenId))
    by (unfold V1_reads; set_solver).
  rewrite (Hstable ((l ++ _) ++ _)
             (([] ++ [RegistryV1_getAgent tokenId])
              ++ [RegistryV1_getLicenses tokenId])
             (Registry_ownerOf tokenId))
    by (unfold V1_reads; set_solver).
  rewrite (Hstable (((l ++ _) ++ _) ++ _)
             ((([] ++ [RegistryV1_getAgent tokenId])
               ++ [RegistryV1_getLicenses tokenId])
              ++ [Registry_ownerOf tokenId])
             (Registry_tokenURI tokenId))
    by (unfold V1_reads; set_solver).
  done.
Qed.

(** With stable answers, every record cached for [tokenId] is the one an
    assembly from scratch yields, and so is every result of [getAgent]. *)
Lemma V2_getAgent_stable rpc tokenId (s : State V2.Agent) :
  stableV2 rpc tokenId →
  stateInv rpc
    (onAgents (λ key a, key = V2.cacheKey tokenId →
                        V2_assemble rpc [] tokenId = Some a)) s →
  fst (V2.getAgent tokenId s) = Return (V2_assemble rpc [] tokenId).
Proof.
  intros Hstable [Hrpc Hall].
  destruct (lookupLive (V2.cacheKey tokenId) s ≫= asAgent) as [a|] eqn:Hlive.
  - rewrite (V2_getAgent_hit _ _ _ Hlive). simpl.
    apply lookupLive_agent in Hlive as (entry & Hentry & Hdata & _).
    specialize (Hall _ _ Hentry). rewrite Hdata in Hall.
    by rewrite (Hall eq_refl).
  - destruct (V2_getAgent_miss _ _ Hlive) as [cs Hrun]. cbn zeta in Hrun.
    rewrite Hrun, Hrpc. simpl. by rewrite V2_assemble_stable.
Qed.

Lemma V1_getAgent_stable rpc tokenId (s : State V1.Agent) :
  stableV1 rpc tokenId →
  stateInv rpc
    (onAgents (λ key a, key = V1.cacheKey tokenId →
                        V1_assemble rpc [] tokenId = Some a)) s →
  fst (V1.getAgent tokenId s) = Return (V1_assemble rpc [] tokenId).
Proof.
  intros Hstable [Hrpc Hall].
  destruct (lookupLive (V1.cacheKey tokenId) s ≫= asAgent) as [a|] eqn:Hlive.
  - rewrite (V1_getAgent_hit _ _ _ Hlive). simpl.
    apply lookupLive_agent in Hlive as (entry & Hentry & Hdata & _).
    specialize (Hall _ _ Hentry). rewrite Hdata in Hall.
    by rewrite (Hall eq_refl).
  - rewrite (V1_getAgent_miss _ _ Hlive), Hrpc. simpl.
    by rewrite V1_assemble_stable.
Qed.

(** C8.  Take a client just built and let its caller do anything; resolve
    an identifier; let the caller do anything again; clear the cache and
    resolve the identifier once more.  When the registry answers the reads
    made for that identifier the same way throughout, the second result is
    the first one: the same record, equal in every field (or absent both
    times).  This holds for the V2 client and for the V1 client. *)
Theorem resolve_after_clearCache
    (createPublicClient : option string → Remote)
    (config : option OriginConfig) (t0 : Z) (l0 : list Call) (tokenId : Z)
    (before between : list Command) :
  let rpc := createPublicClient (config ≫= config_rpcUrl) in
  (stableV2 rpc tokenId →
   let s := V2.session before (initial createPublicClient config t0 l0) in
   let s1 := V2.session between (snd (V2.getAgent tokenId s)) in
   fst (V2.getAgent tokenId (snd (clearCache s1)))
   = fst (V2.getAgent tokenId s)) ∧
  (stableV1 rpc tokenId →
   let s := V1.session before (initial createPublicClient config t0 l0) in
   let s1 := V1.session between (snd (V1.getAgent tokenId s)) in
   fst (V1.getAgent tokenId (snd (clearCache s1)))
   = fst (V1.getAgent tokenId s)).
Proof.
  cbn zeta. set (rpc := createPublicClient (config ≫= config_rpcUrl)).
  split; intros Hstable.
  - pose (P := λ (key : string) (a : V2.Agent),
        key = V2.cacheKey tokenId → V2_assemble rpc [] tokenId = Some a).
    assert (∀ l t a, V2_assemble rpc l t = Some a →
                     onAgents P (V2.cacheKey t) (VAgent a))
      as Hassembled.
    { intros l t a Ha Hkey. apply V2_cacheKey_inj in Hkey as ->.
      by rewrite <- (V2_assemble_stable rpc tokenId l). }
    assert (stateInv rpc (onAgents P)
              (V2.session before (initial createPublicClient config t0 l0)))
      as HI
      by (apply V2_session_invariant; [done | done | apply initial_invariant]).
    rewrite (V2_getAgent_stable rpc tokenId _ Hstable HI).
    apply V2_getAgent_stable; [done|].
    apply Inv_clear, V2_session_invariant; [done | done |].
    by apply V2_getAgent_Preserves.
  - pose (P := λ (key : string) (a : V1.Agent),
        key = V1.cacheKey tokenId → V1_assemble rpc [] tokenId = Some a).
    assert (∀ l t a, V1_assemble rpc l t = Some a →
                     onAgents P (V1.cacheKey t) (VAgent a))
      as Hassembled.
    { intros l t a Ha Hkey. apply V1_cacheKey_inj in Hkey as ->.
      by rewrite <- (V1_assemble_stable rpc tokenId l). }
    assert (stateInv rpc (onAgents P)
              (V1.session before (initial createPublicClient config t0 l0)))
      as HI
      by (apply V1_session_invariant; [done | done | apply initial_invariant]).
    rewrite (V1_getAgent_stable rpc tokenId _ Hstable HI).
    apply V1_getAgent_stable; [done|].
    apply Inv_clear, V1_session_invariant; [done | done |].
    by apply V1_getAgent_Preserves.
Qed.

Lemma resolve_after_clearCache_witness :
  stableV2 sampleRegistry 2 ∧
  fst (V2.getAgent 2
         (snd (clearCache
                 (V2.session [Wait 100; DoGetStats]
                    (snd (V2.getAgent 2
                            (V2.session [DoVerifyAgent addressX]
                               sampleState)))))))
  = Return (Some sampleAgent) ∧
  fst (V2.getAgent 2 (V2.session [DoVerifyAgent addressX] sampleState))
  = Return (Some sampleAgent).
Proof.
  assert (stableV2 sampleRegistry 2) as Hstable
    by (intros l l' c _; reflexivity).
  split; [exact Hstable|]. unfold sampleState.
  rewrite (proj1 (resolve_after_clearCache sampleClient None 1000 [] 2
                    [DoVerifyAgent addressX] [Wait 100; DoGetStats])
             Hstable).
  split; vm_compute; reflexivity.
Defined.

(** ** The contracts on the sample registry *)

(** Statistics stored at time 1000 by a client with the default lifetime
    expire at 31000: they are served at once, and evicted forty seconds
    later. *)
Lemma cache_contract_witness :
  cache (this freshStats) !! "stats"%string
  = Some {| data := VStats sampleStats; expiresAt := 31000 |} ∧
  getCache "stats" freshStats = (Return (Some (VStats sampleStats)), freshStats) ∧
  fst (getCache "stats" oldStats) = Return None ∧
  cache (this (snd (getCache "stats" oldStats))) !! "stats"%string = None.
Proof.
  pose (entry := {| data := VStats (Agent := V2.Agent) sampleStats;
                    expiresAt := 31000 |}).
  destruct (cache_contract sampleClient None sampleState "stats"
              (VStats sampleStats)) as (_ & _ & _ & Hset & _ & _).
  destruct (cache_contract sampleClient None freshStats "stats"
              (VStats sampleStats)) as (_ & _ & _ & _ & _ & Hlive).
  destruct (cache_contract sampleClient None oldStats "stats"
              (VStats sampleStats)) as (_ & _ & _ & _ & Hexpired & _).
  destruct Hset as (_ & Hstored & _).
  split; [exact Hstored|].
  split; [apply (Hlive entry); [vm_compute; reflexivity | vm_compute; discriminate]|].
  destruct (Hexpired entry) as (Hnone & _ & Hgone & _);
    [vm_compute; reflexivity | vm_compute; reflexivity|].
  split; [exact Hnone | exact Hgone].
Defined.

(** Scenario A on the V2 client: three certificates, the ownership read of
    the third fails, the second belongs to the queried address (in another
    letter case): two probes, then the assembly of certificate 2. *)
Lemma findAgentByOwner_scan_witness :
  V2.getTotalRegistered sampleState
  = (Return 3%Z, after sampleState Registry_totalRegistered) ∧
  V2.findAgentByOwner addressX sampleState
  = V2.getAgent 2
      (afterAll (after sampleState Registry_totalRegistered)
         [Registry_ownerOf 3; Registry_ownerOf 2]) ∧
  fst (V2.findAgentByOwner addressX sampleState) = Return (Some sampleAgent).
Proof.
  assert (V2.getTotalRegistered sampleState
          = (Return (Z.of_nat 3), after sampleState Registry_totalRegistered))
    as Htotal by (vm_compute; reflexivity).
  split; [exact Htotal|].
  destruct (proj1 (findAgentByOwner_scan V2.getAgent V2.getTotalRegistered
                     addressX 3 sampleState _ Htotal) 2%nat)
    as (Hrun & _).
  - lia.
  - intros i Hi. assert (i = 3%nat) as -> by lia. vm_compute. tauto.
  - vm_compute; reflexivity.
  - split; [exact Hrun | vm_compute; reflexivity].
Defined.

(** * Further properties *)

(** ** The read-through cache of [getAgent] *)

Lemma lookupLive_None_left {Agent : Type} key (s : State Agent) :
  lookupLive key s = None →
  cache (this (snd (getCache key s))) !! key = None.
Proof.
  unfold lookupLive, getCache.
  destruct (cache (this s) !! key) as [entry|] eqn:Hentry; [|done].
  destruct (now s >? expiresAt entry)%Z; [|done].
  intros _. simpl. apply lookup_delete_eq.
Qed.

Lemma getCache_other {Agent : Type} key key' (s : State Agent) :
  key ≠ key' →
  cache (this (snd (getCache key s))) !! key' = cache (this s) !! key'.
Proof.
  intros Hne. destruct (getCache_state key s) as (_ & _ & _ & _ & [->| ->]).
  - done.
  - by apply lookup_delete_ne.
Qed.

Lemma lookupLive_stored {Agent : Type} key (s : State Agent) v t ms :
  cache (this s) !! key = Some {| data := v; expiresAt := t |} →
  lookupLive key (later ms s)
  = if (now s + ms >? t)%Z then None else Some v.
Proof. intros Hentry. unfold lookupLive. simpl. by rewrite Hentry. Qed.

(** What a [getAgent] that had to assemble leaves behind, in both
    clients: the log has grown by the reads of the assembly, the client
    and its lifetime are the same, and the cache holds the record under
    the key, for one lifetime from the end of the assembly, or nothing
    under the key when there is no record. *)
Lemma V2_getAgent_miss_state tokenId (s : State V2.Agent) :
  lookupLive (V2.cacheKey tokenId) s = None →
  ∃ cs,
    let s' := snd (V2.getAgent tokenId s) in
    log s' = log s ++ V2_reads tokenId ++ cs ∧
    client (this s') = client (this s) ∧
    cacheTtl (this s') = cacheTtl (this s) ∧
    cache (this s') !! V2.cacheKey tokenId
    = match fst (V2.getAgent tokenId s) with
      | Return (Some a) =>
          Some {| data := VAgent a;
                  expiresAt := (now s' + cacheTtl (this s))%Z |}
      | _ => None
      end.
Proof.
  intros Hnone.
  assert (lookupLive (V2.cacheKey tokenId) s ≫= asAgent = None) as Hmiss
    by by rewrite Hnone.
  destruct (getCache_state (V2.cacheKey tokenId) s)
    as (Hclient & Httl & _ & Hlog & _).
  destruct (V2_getAgent_miss _ _ Hmiss) as [cs Hrun]. cbn zeta in Hrun.
  exists cs. rewrite Hrun. cbn zeta.
  destruct (V2_assemble _ _ _) as [a|];
    unfold set_cache; cbn [fst snd log this client cacheTtl cache];
    rewrite ?afterAll_this, afterAll_log, Hlog;
    (split; [done|]); (split; [done|]); (split; [done|]).
  - apply lookup_insert_eq.
  - by apply lookupLive_None_left.
Qed.

Lemma V1_getAgent_miss_state tokenId (s : State V1.Agent) :
  lookupLive (V1.cacheKey tokenId) s = None →
  let s' := snd (V1.getAgent tokenId s) in
  log s' = log s ++ V1_reads tokenId ∧
  client (this s') = client (this s) ∧
  cacheTtl (this s') = cacheTtl (this s) ∧
  cache (this s') !! V1.cacheKey tokenId
  = match fst (V1.getAgent tokenId s) with
    | Return (Some a) =>
        Some {| data := VAgent a;
                expiresAt := (now s' + cacheTtl (this s))%Z |}
    | _ => None
    end.
Proof.
  intros Hnone.
  assert (lookupLive (V1.cacheKey tokenId) s ≫= asAgent = None) as Hmiss
    by by rewrite Hnone.
  destruct (getCache_state (V1.cacheKey tokenId) s)
    as (Hclient & Httl & _ & Hlog & _).
  rewrite (V1_getAgent_miss _ _ Hmiss). cbn zeta.
  destruct (V1_assemble _ _ _) as [a|];
    unfold set_cache; cbn [fst snd log this client cacheTtl cache];
    rewrite ?afterAll_this, afterAll_log, Hlog;
    (split; [done|]); (split; [done|]); (split; [done|]).
  - apply lookup_insert_eq.
  - by apply lookupLive_None_left.
Qed.

(** X1.  A record that [getAgent] had to assemble is served from the
    cache for one lifetime: asked again for the same identifier at most
    [cacheTtl] milliseconds after the assembly ended, [getAgent] returns
    the same record and changes nothing; in particular it reads nothing
    from the registry.  This holds for both clients. *)
Theorem getAgent_served_from_cache (tokenId ms : Z) :
  (∀ (s : State V2.Agent) a,
     lookupLive (V2.cacheKey tokenId) s = None →
     fst (V2.getAgent tokenId s) = Return (Some a) →
     (ms ≤ cacheTtl (this s))%Z →
     let s1 := later ms (snd (V2.getAgent tokenId s)) in
     V2.getAgent tokenId s1 = (Return (Some a), s1)) ∧
  (∀ (s : State V1.Agent) a,
     lookupLive (V1.cacheKey tokenId) s = None →
     fst (V1.getAgent tokenId s) = Return (Some a) →
     (ms ≤ cacheTtl (this s))%Z →
     let s1 := later ms (snd (V1.getAgent tokenId s)) in
     V1.getAgent tokenId s1 = (Return (Some a), s1)).
Proof.
  split; intros s a Hnone Hget Hms; cbn zeta.
  - destruct (V2_getAgent_miss_state tokenId s Hnone)
      as (cs & _ & _ & _ & Hstored).
    cbn zeta in Hstored. rewrite Hget in Hstored.
    apply V2_getAgent_hit.
    rewrite (lookupLive_stored _ _ _ _ _ Hstored).
    destruct (Z.gtb_spec (now (snd (V2.getAgent tokenId s)) + ms)
                (now (snd (V2.getAgent tokenId s)) + cacheTtl (this s)));
      [lia | done].
  - destruct (V1_getAgent_miss_state tokenId s Hnone)
      as (_ & _ & _ & Hstored).
    cbn zeta in Hstored. rewrite Hget in Hstored.
    apply V1_getAgent_hit.
    rewrite (lookupLive_stored _ _ _ _ _ Hstored).
    destruct (Z.gtb_spec (now (snd (V1.getAgent tokenId s)) + ms)
                (now (snd (V1.getAgent tokenId s)) + cacheTtl (this s)));
      [lia | done].
Qed.

Lemma getAgent_served_from_cache_witness :
  lookupLive (V2.cacheKey 2) sampleState = None ∧
  fst (V2.getAgent 2 sampleState) = Return (Some sampleAgent) ∧
  V2.getAgent 2 (later 30000 (snd (V2.getAgent 2 sampleState)))
  = (Return (Some sampleAgent),
     later 30000 (snd (V2.getAgent 2 sampleState))).
Proof.
  split; [vm_compute; reflexivity|]. split; [vm_compute; reflexivity|].
  apply (proj1 (getAgent_served_from_cache 2 30000) sampleState sampleAgent);
    [vm_compute; reflexivity | vm_compute; reflexivity | vm_compute; discriminate].
Defined.

(** X2.  Once the lifetime has passed the record is read again: asked for
    the same identifier more than [cacheTtl] milliseconds after the
    assembly ended, [getAgent] finds the entry expired, issues the reads of
    an assembly anew, and when this second assembly fails the result is
    absent and the stale record is gone from the cache. *)
Theorem getAgent_reads_again_after_expiry (tokenId ms : Z) :
  (∀ (s : State V2.Agent) a,
     lookupLive (V2.cacheKey tokenId) s = None →
     fst (V2.getAgent tokenId s) = Return (Some a) →
     (cacheTtl (this s) < ms)%Z →
     let s1 := later ms (snd (V2.getAgent tokenId s)) in
     let s2 := snd (V2.getAgent tokenId s1) in
     (∃ cs, log s2 = log s1 ++ V2_reads tokenId ++ cs) ∧
     (∀ e, answer s1 (Registry_getAgent tokenId) = Fail e →
           fst (V2.getAgent tokenId s1) = Return None ∧
           cache (this s2) !! V2.cacheKey tokenId = None)) ∧
  (∀ (s : State V1.Agent) a,
     lookupLive (V1.cacheKey tokenId) s = None →
     fst (V1.getAgent tokenId s) = Return (Some a) →
     (cacheTtl (this s) < ms)%Z →
     let s1 := later ms (snd (V1.getAgent tokenId s)) in
     let s2 := snd (V1.getAgent tokenId s1) in
     log s2 = log s1 ++ V1_reads tokenId ∧
     (∀ e, answer s1 (RegistryV1_getAgent tokenId) = Fail e →
           fst (V1.getAgent tokenId s1) = Return None ∧
           cache (this s2) !! V1.cacheKey tokenId = None)).
Proof.
  split; intros s a Hnone Hget Hms; cbn zeta.
  - destruct (V2_getAgent_miss_state tokenId s Hnone)
      as (cs & _ & _ & _ & Hstored).
    cbn zeta in Hstored. rewrite Hget in Hstored.
    set (s1 := later ms (snd (V2.getAgent tokenId s))).
    assert (lookupLive (V2.cacheKey tokenId) s1 = None) as Hexpired.
    { unfold s1. rewrite (lookupLive_stored _ _ _ _ _ Hstored).
      destruct (Z.gtb_spec (now (snd (V2.getAgent tokenId s)) + ms)
                  (now (snd (V2.getAgent tokenId s)) + cacheTtl (this s)));
        [done | lia]. }
    destruct (V2_getAgent_miss_state tokenId s1 Hexpired)
      as (cs' & Hlog & _ & _ & Hstored').
    cbn zeta in Hlog, Hstored'.
    split; [by exists cs'|]. intros e Hfail.
    assert (fst (V2.getAgent tokenId s1) = Return None) as Hres.
    { assert (lookupLive (V2.cacheKey tokenId) s1 ≫= asAgent = None) as Hmiss
        by by rewrite Hexpired.
      destruct (V2_getAgent_miss _ _ Hmiss) as [cs'' Hrun].
      cbn zeta in Hrun. rewrite Hrun. cbn [fst]. unfold V2_assemble.
      unfold answer in Hfail. by rewrite Hfail. }
    split; [exact Hres|]. by rewrite Hres in Hstored'.
  - destruct (V1_getAgent_miss_state tokenId s Hnone)
      as (_ & _ & _ & Hstored).
    cbn zeta in Hstored. rewrite Hget in Hstored.
    set (s1 := later ms (snd (V1.getAgent tokenId s))).
    assert (lookupLive (V1.cacheKey tokenId) s1 = None) as Hexpired.
    { unfold s1. rewrite (lookupLive_stored _ _ _ _ _ Hstored).
      destruct (Z.gtb_spec (now (snd (V1.getAgent tokenId s)) + ms)
                  (now (snd (V1.getAgent tokenId s)) + cacheTtl (this s)));
        [done | lia]. }
    destruct (V1_getAgent_miss_state tokenId s1 Hexpired)
      as (Hlog & _ & _ & Hstored').
    cbn zeta in Hlog, Hstored'.
    split; [exact Hlog|]. intros e Hfail.
    assert (fst (V1.getAgent tokenId s1) = Return None) as Hres.
    { assert (lookupLive (V1.cacheKey tokenId) s1 ≫= asAgent = None) as Hmiss
        by by rewrite Hexpired.
      rewrite (V1_getAgent_miss _ _ Hmiss). cbn [fst]. unfold V1_assemble.
      unfold answer in Hfail. by rewrite Hfail. }
    split; [exact Hres|]. by rewrite Hres in Hstored'.
Qed.

(** On the flaky endpoint the first assembly of certificate 2 succeeds;
    a minute later the entry has expired and the endpoint is down. *)
Lemma getAgent_reads_again_after_expiry_witness :
  lookupLive (V2.cacheKey 2) flakyState = None ∧
  fst (V2.getAgent 2 flakyState) = Return (Some sampleAgent) ∧
  fst (V2.getAgent 2 (later 60000 (snd (V2.getAgent 2 flakyState))))
  = Return None ∧
  cache (this (snd (V2.getAgent 2
                      (later 60000 (snd (V2.getAgent 2 flakyState))))))
    !! V2.cacheKey 2 = None.
Proof.
  split; [vm_compute; reflexivity|]. split; [vm_compute; reflexivity|].
  destruct (proj1 (getAgent_reads_again_after_expiry 2 60000)
              flakyState sampleAgent) as [_ Hfail];
    [vm_compute; reflexivity | vm_compute; reflexivity
    | vm_compute; reflexivity |].
  apply (Hfail (ErrorObj "network down")). vm_compute; reflexivity.
Defined.

(** ** What the cache never holds *)

Lemma V2_assemble_id rpc l tokenId a :
  V2_assemble rpc l tokenId = Some a → V2.id a = tokenId.
Proof.
  unfold V2_assemble.
  destruct (respond rpc l _) as [[[[name agentType] owner] birthBlock]|e];
    [|done].
  by intros [= <-].
Qed.

Lemma V1_assemble_id rpc l tokenId a :
  V1_assemble rpc l tokenId = Some a → V1.id a = tokenId.
Proof.
  unfold V1_assemble.
  destruct (respond rpc l _) as [record|e]; [|done].
  destruct (respond rpc _ (Registry_ownerOf _)) as [owner|e]; [|done].
  destruct (respond rpc _ (Registry_tokenURI _)) as [tokenURI|e]; [|done].
  by intros [= <-].
Qed.

(** X3.  Along any session of a client just built, a [getAgent] that
    returns absent leaves nothing in the cache under the key of the
    identifier: a failure is never cached, and the next call reads the
    registry again. *)
Theorem getAgent_absent_not_cached
    (createPublicClient : option string → Remote)
    (config : option OriginConfig) (t0 : Z) (l0 : list Call)
    (cmds : list Command) (tokenId : Z) :
  (let s := V2.session cmds (initial createPublicClient config t0 l0) in
   fst (V2.getAgent tokenId s) = Return None →
   cache (this (snd (V2.getAgent tokenId s))) !! V2.cacheKey tokenId = None ∧
   lookupLive (V2.cacheKey tokenId) (snd (V2.getAgent tokenId s)) = None) ∧
  (let s := V1.session cmds (initial createPublicClient config t0 l0) in
   fst (V1.getAgent tokenId s) = Return None →
   cache (this (snd (V1.getAgent tokenId s))) !! V1.cacheKey tokenId = None ∧
   lookupLive (V1.cacheKey tokenId) (snd (V1.getAgent tokenId s)) = None).
Proof.
  split; cbn zeta; intros Habsent.
  - set (s := V2.session cmds (initial createPublicClient config t0 l0)) in *.
    assert (lookupLive (V2.cacheKey tokenId) s = None) as Hnone.
    { apply wellTyped_agent_miss; [apply V2_session_wellTyped|].
      destruct (lookupLive _ s ≫= asAgent) as [a|] eqn:Hlive; [|done].
      by rewrite (V2_getAgent_hit _ _ _ Hlive) in Habsent. }
    destruct (V2_getAgent_miss_state tokenId s Hnone)
      as (cs & _ & _ & _ & Hstored).
    cbn zeta in Hstored. rewrite Habsent in Hstored.
    split; [exact Hstored|]. unfold lookupLive. by rewrite Hstored.
  - set (s := V1.session cmds (initial createPublicClient config t0 l0)) in *.
    assert (lookupLive (V1.cacheKey tokenId) s = None) as Hnone.
    { apply wellTyped_agent_miss; [apply V1_session_wellTyped|].
      destruct (lookupLive _ s ≫= asAgent) as [a|] eqn:Hlive; [|done].
      by rewrite (V1_getAgent_hit _ _ _ Hlive) in Habsent. }
    destruct (V1_getAgent_miss_state tokenId s Hnone)
      as (_ & _ & _ & Hstored).
    cbn zeta in Hstored. rewrite Habsent in Hstored.
    split; [exact Hstored|]. unfold lookupLive. by rewrite Hstored.
Qed.

(** The sample registry has no certificate 9. *)
Lemma getAgent_absent_not_cached_witness :
  fst (V2.getAgent 9 (V2.session [DoGetAgent 2; DoGetStats] sampleState))
  = Return None ∧
  cache (this (snd (V2.getAgent 9
                      (V2.session [DoGetAgent 2; DoGetStats] sampleState))))
    !! V2.cacheKey 9 = None.
Proof.
  assert (fst (V2.getAgent 9
                 (V2.session [DoGetAgent 2; DoGetStats] sampleState))
          = Return None) as Habsent by (vm_compute; reflexivity).
  split; [exact Habsent|].
  apply (proj1 (getAgent_absent_not_cached sampleClient None 1000 []
                  [DoGetAgent 2; DoGetStats] 9) Habsent).
Defined.

(** X4.  Along any session of a client just built, the record [getAgent]
    returns for an identifier carries that identifier, also when it comes
    from the cache; hence a positive [verifyAgentById] names the record of
    the identifier asked for, with the trust level of that record. *)
Theorem resolved_record_has_the_id
    (createPublicClient : option string → Remote)
    (config : option OriginConfig) (t0 : Z) (l0 : list Call)
    (cmds : list Command) (tokenId : Z) :
  (let s := V2.session cmds (initial createPublicClient config t0 l0) in
   (∀ a, fst (V2.getAgent tokenId s) = Return (Some a) → V2.id a = tokenId) ∧
   (∀ r, fst (V2.verifyAgentById tokenId s) = Return r → verified r = true →
         ∃ a, agent r = Some a ∧ V2.id a = tokenId ∧
              trustLevel r = V2.trustLevel a ∧ error r = None)) ∧
  (let s := V1.session cmds (initial createPublicClient config t0 l0) in
   (∀ a, fst (V1.getAgent tokenId s) = Return (Some a) → V1.id a = tokenId) ∧
   (∀ r, fst (V1.verifyAgentById tokenId s) = Return r → verified r = true →
         ∃ a, agent r = Some a ∧ V1.id a = tokenId ∧
              trustLevel r = V1.trustLevel a ∧ error r = None)).
Proof.
  set (rpc := createPublicClient (config ≫= config_rpcUrl)).
  split; cbn zeta.
  - set (s := V2.session cmds (initial createPublicClient config t0 l0)).
    pose (P := λ (key : string) (a : V2.Agent), key = V2.cacheKey (V2.id a)).
    assert (∀ a, fst (V2.getAgent tokenId s) = Return (Some a) →
                 V2.id a = tokenId) as Hid.
    { intros a Hget. symmetry. apply V2_cacheKey_inj.
      change (onAgents P (V2.cacheKey tokenId) (VAgent a)).
      apply (V2_getAgent_result rpc (onAgents P)) with (s := s);
        [|apply V2_session_invariant; [done| |apply initial_invariant]
         |exact Hget];
        intros l t a' Ha'; unfold onAgents, P;
        by rewrite (V2_assemble_id _ _ _ _ Ha'). }
    split; [exact Hid|]. intros r Hrun Hverified.
    unfold V2.verifyAgentById, verifyAgentById, try_catch, bind in Hrun.
    destruct (V2.getAgent tokenId s) as [[[a|]|e] s'] eqn:Hget;
      simpl in Hrun; injection Hrun as <-; try discriminate Hverified.
    exists a. split; [done|]. split; [by apply Hid | done].
  - set (s := V1.session cmds (initial createPublicClient config t0 l0)).
    pose (P := λ (key : string) (a : V1.Agent), key = V1.cacheKey (V1.id a)).
    assert (∀ a, fst (V1.getAgent tokenId s) = Return (Some a) →
                 V1.id a = tokenId) as Hid.
    { intros a Hget. symmetry. apply V1_cacheKey_inj.
      change (onAgents P (V1.cacheKey tokenId) (VAgent a)).
      apply (V1_getAgent_result rpc (onAgents P)) with (s := s);
        [|apply V1_session_invariant; [done| |apply initial_invariant]
         |exact Hget];
        intros l t a' Ha'; unfold onAgents, P;
        by rewrite (V1_assemble_id _ _ _ _ Ha'). }
    split; [exact Hid|]. intros r Hrun Hverified.
    unfold V1.verifyAgentById, verifyAgentById, try_catch, bind in Hrun.
    destruct (V1.getAgent tokenId s) as [[[a|]|e] s'] eqn:Hget;
      simpl in Hrun; injection Hrun as <-; try discriminate Hverified.
    exists a. split; [done|]. split; [by apply Hid | done].
Qed.

(** ** The statistics *)

Section StatsFacts.

Context {Agent : Type}.
Variable getTotalRegistered : M Agent Z.

Implicit Types (s : State Agent).

(** The run of a [getStats] that finds no statistics to serve: the total,
    then the two reads with a default, whatever becomes of the total; the
    statistics are stored when the total could be read. *)
Lemma getStats_miss_run s :
  lookupLive "stats" s ≫= asStats = None →
  let s1 := snd (getCache "stats" s) in
  let s2 := snd (getTotalRegistered s1) in
  let s3 := after s2 Faucet_totalClaims in
  let s4 := after s3 Clams_totalSupply in
  getStats getTotalRegistered s
  = match fst (getTotalRegistered s1) with
    | Return total =>
        let stats :=
          {| totalRegistered := total;
             totalClaims :=
               thenOrElse Z.of_N (answer s2 Faucet_totalClaims) 0%Z;
             totalClamsSupply :=
               thenOrElse (λ r, formatUnits r 18)
                 (answer s3 Clams_totalSupply) "0"%string |} in
        (Return stats,
         set_cache
           (insert "stats"%string
              {| data := VStats stats;
                 expiresAt := (now s4 + cacheTtl (this s4))%Z |}) s4)
    | Throw e => (Throw e, s4)
    end.
Proof.
  intros Hmiss. cbn zeta.
  unfold getStats. unfold bind at 1. rewrite getCache_run, Hmiss.
  unfold bind, Promise_all, try_catch, setCache, ret, readContract,
    answer, after, thenOrElse.
  destruct (getTotalRegistered _) as [[total|e] s2]; simpl;
    repeat (case_response; simpl); reflexivity.
Qed.

Lemma getStats_hit s p :
  lookupLive "stats" s ≫= asStats = Some p →
  getStats getTotalRegistered s = (Return p, s).
Proof.
  intros Hhit. unfold getStats, bind.
  destruct (lookupLive "stats" s) as [v|] eqn:Hlive; [|done].
  rewrite (getCache_hit _ _ _ Hlive). simpl in *. by rewrite Hhit.
Qed.

Lemma getStats_miss_stored s p :
  lookupLive "stats" s ≫= asStats = None →
  cacheTtl (this (snd (getTotalRegistered (snd (getCache "stats" s)))))
  = cacheTtl (this s) →
  fst (getStats getTotalRegistered s) = Return p →
  let s' := snd (getStats getTotalRegistered s) in
  cache (this s') !! "stats"%string
  = Some {| data := VStats p; expiresAt := (now s' + cacheTtl (this s))%Z |}.
Proof.
  intros Hmiss Httl. rewrite (getStats_miss_run s Hmiss). cbn zeta.
  destruct (getTotalRegistered _) as [[total|e] s2]; cbn [fst snd] in *;
    [|done].
  intros [= <-]. unfold set_cache. cbn [this cache now].
  rewrite lookup_insert_eq. rewrite !after_this, Httl. reflexivity.
Qed.

End StatsFacts.

Ltac stats_setup s Hmiss s1 :=
  let Hclient := fresh "Hclient" in
  let Httl := fresh "Httl" in
  let Hnow := fresh "Hnow" in
  let Hlog := fresh "Hlog" in
  destruct (getCache_state "stats" s) as (Hclient & Httl & Hnow & Hlog & _);
  rewrite (getStats_miss_run _ s Hmiss); cbn zeta;
  set (s1 := snd (getCache "stats" s)) in *;
  rewrite <- ?Hclient, <- ?Hlog, <- ?Httl; clearbody s1.

(** X5.  A [getStats] that finds no statistics to serve and can read the
    total issues three reads, the total, the claims and the supply, in
    this order and no other; the statistics carry the total, the claims
    (0 when that read fails) and the supply formatted with 18 decimals
    (["0"] when that read fails); they are returned and stored under
    ["stats"] for one lifetime. *)
Theorem getStats_assembles :
  (∀ (s : State V2.Agent) (total : N),
     lookupLive "stats" s ≫= asStats = None →
     answer s Registry_totalRegistered = Ok total →
     let rpc := client (this s) in
     let l1 := log s ++ [Registry_totalRegistered] in
     let l2 := l1 ++ [Faucet_totalClaims] in
     let stats :=
       {| totalRegistered := Z.of_N total;
          totalClaims :=
            thenOrElse Z.of_N (respond rpc l1 Faucet_totalClaims) 0%Z;
          totalClamsSupply :=
            thenOrElse (λ r, formatUnits r 18)
              (respond rpc l2 Clams_totalSupply) "0"%string |} in
     let s' := snd (V2.getStats s) in
     fst (V2.getStats s) = Return stats ∧
     log s' = l2 ++ [Clams_totalSupply] ∧
     cache (this s') !! "stats"%string
     = Some {| data := VStats stats;
               expiresAt := (now s' + cacheTtl (this s))%Z |}) ∧
  (∀ (s : State V1.Agent) (total : N),
     lookupLive "stats" s ≫= asStats = None →
     answer s RegistryV1_totalAgents = Ok total →
     let rpc := client (this s) in
     let l1 := log s ++ [RegistryV1_totalAgents] in
     let l2 := l1 ++ [Faucet_totalClaims] in
     let stats :=
       {| totalRegistered := Z.of_N total;
          totalClaims :=
            thenOrElse Z.of_N (respond rpc l1 Faucet_totalClaims) 0%Z;
          totalClamsSupply :=
            thenOrElse (λ r, formatUnits r 18)
              (respond rpc l2 Clams_totalSupply) "0"%string |} in
     let s' := snd (V1.getStats s) in
     fst (V1.getStats s) = Return stats ∧
     log s' = l2 ++ [Clams_totalSupply] ∧
     cache (this s') !! "stats"%string
     = Some {| data := VStats stats;
               expiresAt := (now s' + cacheTtl (this s))%Z |}).
Proof.
  split; intros s total Hmiss Htotal; cbn zeta.
  - rewrite <- (getCache_answer "stats") in Htotal. unfold V2.getStats.
    stats_setup s Hmiss s1.
    rewrite V2_getTotalRegistered_run, Htotal. cbn [fst snd].
    split; [reflexivity|]. split; [reflexivity|]. apply lookup_insert_eq.
  - rewrite <- (getCache_answer "stats") in Htotal. unfold V1.getStats.
    stats_setup s Hmiss s1.
    rewrite V1_getTotalAgents_run, Htotal. cbn [fst snd].
    split; [reflexivity|]. split; [reflexivity|]. apply lookup_insert_eq.
Qed.

(** On the sample registry the three reads succeed. *)
Lemma getStats_assembles_witness :
  fst (V2.getStats sampleState) = Return sampleStats ∧
  log (snd (V2.getStats sampleState))
  = [Registry_totalRegistered; Faucet_totalClaims; Clams_totalSupply] ∧
  cache (this (snd (V2.getStats sampleState))) !! "stats"%string
  = Some {| data := VStats sampleStats; expiresAt := 31060 |}.
Proof.
  apply (proj1 getStats_assembles sampleState 3%N);
    vm_compute; reflexivity.
Defined.

(** X6.  When the total cannot be read, a [getStats] that finds no
    statistics in the cache throws what that read threw; the two other
    reads have been issued all the same, and nothing is stored: the next
    call starts over. *)
Theorem getStats_failure_not_cached :
  (∀ (s : State V2.Agent) e,
     lookupLive "stats" s = None →
     answer s Registry_totalRegistered = Fail e →
     let s' := snd (V2.getStats s) in
     fst (V2.getStats s) = Throw e ∧
     log s' = log s ++ [Registry_totalRegistered; Faucet_totalClaims;
                        Clams_totalSupply] ∧
     cache (this s') !! "stats"%string = None) ∧
  (∀ (s : State V1.Agent) e,
     lookupLive "stats" s = None →
     answer s RegistryV1_totalAgents = Fail e →
     let s' := snd (V1.getStats s) in
     fst (V1.getStats s) = Throw e ∧
     log s' = log s ++ [RegistryV1_totalAgents; Faucet_totalClaims;
                        Clams_totalSupply] ∧
     cache (this s') !! "stats"%string = None).
Proof.
  split; intros s e Hnone Htotal; cbn zeta.
  - assert (lookupLive "stats" s ≫= asStats = None) as Hmiss
      by by rewrite Hnone.
    assert (Hleft := lookupLive_None_left "stats" s Hnone).
    rewrite <- (getCache_answer "stats") in Htotal. unfold V2.getStats.
    stats_setup s Hmiss s1.
    rewrite V2_getTotalRegistered_run, Htotal. cbn [fst snd].
    split; [reflexivity|]. split; [|exact Hleft].
    unfold after. simpl. by rewrite <- !app_assoc.
  - assert (lookupLive "stats" s ≫= asStats = None) as Hmiss
      by by rewrite Hnone.
    assert (Hleft := lookupLive_None_left "stats" s Hnone).
    rewrite <- (getCache_answer "stats") in Htotal. unfold V1.getStats.
    stats_setup s Hmiss s1.
    rewrite V1_getTotalAgents_run, Htotal. cbn [fst snd].
    split; [reflexivity|]. split; [|exact Hleft].
    unfold after. simpl. by rewrite <- !app_assoc.
Qed.

Lemma getStats_failure_not_cached_witness :
  fst (V2.getStats deadState) = Throw (ErrorObj "network down") ∧
  log (snd (V2.getStats deadState))
  = [Registry_totalRegistered; Faucet_totalClaims; Clams_totalSupply] ∧
  cache (this (snd (V2.getStats deadState))) !! "stats"%string = None.
Proof.
  apply (proj1 getStats_failure_not_cached deadState
           (ErrorObj "network down")); vm_compute; reflexivity.
Defined.

(** X7.  Statistics that [getStats] had to assemble are served from the
    cache for one lifetime: called again at most [cacheTtl] milliseconds
    later, [getStats] returns the same statistics, reads nothing and
    changes nothing. *)
Theorem getStats_served_from_cache (ms : Z) :
  (∀ (s : State V2.Agent) p,
     lookupLive "stats" s ≫= asStats = None →
     fst (V2.getStats s) = Return p →
     (ms ≤ cacheTtl (this s))%Z →
     let s1 := later ms (snd (V2.getStats s)) in
     V2.getStats s1 = (Return p, s1)) ∧
  (∀ (s : State V1.Agent) p,
     lookupLive "stats" s ≫= asStats = None →
     fst (V1.getStats s) = Return p →
     (ms ≤ cacheTtl (this s))%Z →
     let s1 := later ms (snd (V1.getStats s)) in
     V1.getStats s1 = (Return p, s1)).
Proof.
  split; intros s p Hmiss Hget Hms; cbn zeta.
  - assert (Hstored := getStats_miss_stored V2.getTotalRegistered s p Hmiss).
    rewrite V2_getTotalRegistered_run in Hstored.
    destruct (getCache_state "stats" s) as (_ & Httl & _ & _ & _).
    specialize (Hstored Httl Hget). cbn zeta in Hstored.
    apply getStats_hit.
    rewrite (lookupLive_stored _ _ _ _ _ Hstored).
    destruct (Z.gtb_spec
                (now (snd (getStats V2.getTotalRegistered s)) + ms)
                (now (snd (getStats V2.getTotalRegistered s))
                 + cacheTtl (this s))); [lia | done].
  - assert (Hstored := getStats_miss_stored V1.getTotalAgents s p Hmiss).
    rewrite V1_getTotalAgents_run in Hstored.
    destruct (getCache_state "stats" s) as (_ & Httl & _ & _ & _).
    specialize (Hstored Httl Hget). cbn zeta in Hstored.
    apply getStats_hit.
    rewrite (lookupLive_stored _ _ _ _ _ Hstored).
    destruct (Z.gtb_spec
                (now (snd (getStats V1.getTotalAgents s)) + ms)
                (now (snd (getStats V1.getTotalAgents s))
                 + cacheTtl (this s))); [lia | done].
Qed.

Lemma getStats_served_from_cache_witness :
  V2.getStats (later 30000 (snd (V2.getStats sampleState)))
  = (Return sampleStats, later 30000 (snd (V2.getStats sampleState))).
Proof.
  apply (proj1 (getStats_served_from_cache 30000) sampleState sampleStats);
    [vm_compute; reflexivity | vm_compute; reflexivity
    | vm_compute; discriminate].
Defined.

(** ** Which entries an operation touches *)

Lemma getStats_other {Agent : Type} (getTotalRegistered : M Agent Z)
    (s : State Agent) key :
  (∀ s0, this (snd (getTotalRegistered s0)) = this s0) →
  key ≠ "stats"%string →
  cache (this (snd (getStats getTotalRegistered s))) !! key
  = cache (this s) !! key.
Proof.
  intros Hthis Hne.
  destruct (lookupLive "stats" s ≫= asStats) as [p|] eqn:Hlive.
  - by rewrite (getStats_hit _ _ _ Hlive).
  - rewrite (getStats_miss_run _ s Hlive). cbn zeta.
    destruct (fst (getTotalRegistered _)) as [total|e]; cbn [snd];
      unfold set_cache; cbn [this cache];
      rewrite ?lookup_insert_ne by done;
      rewrite !after_this, Hthis; by apply getCache_other.
Qed.

Lemma V2_getAgent_other tokenId (s : State V2.Agent) key :
  key ≠ V2.cacheKey tokenId →
  cache (this (snd (V2.getAgent tokenId s))) !! key = cache (this s) !! key.
Proof.
  intros Hne.
  destruct (lookupLive (V2.cacheKey tokenId) s ≫= asAgent) as [a|] eqn:Hlive.
  - by rewrite (V2_getAgent_hit _ _ _ Hlive).
  - destruct (V2_getAgent_miss _ _ Hlive) as [cs Hrun]. cbn zeta in Hrun.
    rewrite Hrun.
    destruct (V2_assemble _ _ _) as [a|]; cbn [snd];
      unfold set_cache; cbn [this cache];
      rewrite ?lookup_insert_ne by done;
      rewrite afterAll_this; by apply getCache_other.
Qed.

Lemma V1_getAgent_other tokenId (s : State V1.Agent) key :
  key ≠ V1.cacheKey tokenId →
  cache (this (snd (V1.getAgent tokenId s))) !! key = cache (this s) !! key.
Proof.
  intros Hne.
  destruct (lookupLive (V1.cacheKey tokenId) s ≫= asAgent) as [a|] eqn:Hlive.
  - by rewrite (V1_getAgent_hit _ _ _ Hlive).
  - rewrite (V1_getAgent_miss _ _ Hlive).
    destruct (V1_assemble _ _ _) as [a|]; cbn [snd];
      unfold set_cache; cbn [this cache];
      rewrite ?lookup_insert_ne by done;
      rewrite afterAll_this; by apply getCache_other.
Qed.

(** X8.  Each identifier has a cache key of its own, different from the
    key of the statistics, and [getAgent] only ever touches the entry
    under the key of the identifier it is asked for: resolving one record
    never evicts, replaces or refreshes the record of another identifier
    or the statistics.  Likewise [getStats] only touches the entry under
    ["stats"]. *)
Theorem cache_entries_are_independent (tokenId : Z) :
  ((∀ tokenId', tokenId' ≠ tokenId →
      V2.cacheKey tokenId' ≠ V2.cacheKey tokenId) ∧
   V2.cacheKey tokenId ≠ "stats"%string ∧
   (∀ (s : State V2.Agent) key, key ≠ V2.cacheKey tokenId →
      cache (this (snd (V2.getAgent tokenId s))) !! key
      = cache (this s) !! key) ∧
   (∀ (s : State V2.Agent) key, key ≠ "stats"%string →
      cache (this (snd (V2.getStats s))) !! key = cache (this s) !! key)) ∧
  ((∀ tokenId', tokenId' ≠ tokenId →
      V1.cacheKey tokenId' ≠ V1.cacheKey tokenId) ∧
   V1.cacheKey tokenId ≠ "stats"%string ∧
   (∀ (s : State V1.Agent) key, key ≠ V1.cacheKey tokenId →
      cache (this (snd (V1.getAgent tokenId s))) !! key
      = cache (this s) !! key) ∧
   (∀ (s : State V1.Agent) key, key ≠ "stats"%string →
      cache (this (snd (V1.getStats s))) !! key = cache (this s) !! key)).
Proof.
  split.
  - split; [intros t' Hne Heq; by apply Hne, V2_cacheKey_inj|].
    split; [discriminate|].
    split; [intros s key; apply V2_getAgent_other|].
    intros s key. apply getStats_other.
    intros s0. by rewrite V2_getTotalRegistered_run.
  - split; [intros t' Hne Heq; by apply Hne, V1_cacheKey_inj|].
    split; [discriminate|].
    split; [intros s key; apply V1_getAgent_other|].
    intros s key. apply getStats_other.
    intros s0. by rewrite V1_getTotalAgents_run.
Qed.

(** ** The operations that bypass the cache *)

(** X9.  [hasClaimed] never throws: it returns what the faucet read
    returns, and [false] when that read fails.  It makes that single read
    and leaves the client and its cache as they were. *)
Theorem hasClaimed_passthrough {Agent : Type} (address : string)
    (s : State Agent) :
  let run := hasClaimed address s in
  fst run = Return (orElse (answer s (Faucet_hasClaimed address)) false) ∧
  log (snd run) = log s ++ [Faucet_hasClaimed address] ∧
  this (snd run) = this s.
Proof.
  cbn zeta. unfold hasClaimed, try_catch. rewrite readContract_run.
  by destruct (answer s _).
Qed.

(** X10.  [getClamsBalance] is not cached: each call makes the
    balance read, whatever was read before, and leaves the client and its
    cache as they were.  When the read succeeds the result carries the raw
    amount and that amount formatted with 18 decimals. *)
Theorem getClamsBalance_uncached {Agent : Type} (address : string)
    (s : State Agent) :
  let run := getClamsBalance address s in
  log (snd run) = log s ++ [Clams_balanceOf address] ∧
  this (snd run) = this s ∧
  (∀ amount, answer s (Clams_balanceOf address) = Ok amount →
     fst run = Return {| raw := amount;
                         formatted := formatUnits amount 18 |}) ∧
  (let again := getClamsBalance address (snd run) in
   log (snd again)
   = log s ++ [Clams_balanceOf address; Clams_balanceOf address]).
Proof.
  cbn zeta. unfold getClamsBalance, bind, ret. rewrite !readContract_run.
  destruct (answer s _) as [amount|e]; cbn [fst snd].
  - split; [done|]. split; [done|]. split; [by intros ? [= <-]|].
    destruct (answer _ _); cbn [snd]; rewrite !after_log;
      by rewrite <- app_assoc.
  - split; [done|]. split; [done|]. split; [done|].
    destruct (answer _ _); cbn [snd]; rewrite !after_log;
      by rewrite <- app_assoc.
Qed.

(** ** The outcomes of [verifyAgent] and [verifyAgentById] *)

Section VerifyFacts.

Context {Agent : Type}.
Variable agent_trustLevel : Agent → TrustLevel.
Variable getAgent : Z → M Agent (option Agent).
Variable getTotalRegistered : M Agent Z.

Implicit Types (s : State Agent) (address : string).

(** Past a nonzero count, [verifyAgent] is the scan with its outcome put
    in the shape of a result. *)
Lemma verifyAgent_nonzero address s (balance : N) :
  answer s (Registry_balanceOf address) = Ok balance →
  balance ≠ 0%N →
  verifyAgent agent_trustLevel getAgent getTotalRegistered address s
  = let '(o, s') :=
      findAgentByOwner getAgent getTotalRegistered address
        (after s (Registry_balanceOf address)) in
    (Return
       match o with
       | Return (Some a) =>
           {| verified := true; trustLevel := agent_trustLevel a;
              agent := Some a; error := None |}
       | Return None =>
           notVerified "Birth Certificate exists but agent data not found"
       | Throw e => notVerified (errorMessage e)
       end, s').
Proof.
  intros Hbalance Hne. unfold verifyAgent, try_catch. unfold bind at 1.
  rewrite readContract_run, Hbalance.
  destruct (N.eqb_spec balance 0); [done|].
  unfold bind.
  by destruct (findAgentByOwner _ _ _ _) as [[[a|]|e] s'].
Qed.

End VerifyFacts.

(** X11.  [verifyAgent] turns the failure of a read into a negative
    result that carries the failure's message ([error.message] for an
    [Error], ["Verification failed"] for anything else): so for the
    ownership-count read, after which nothing else is read, and so for the
    read of the total, which [findAgentByOwner] alone would let through. *)
Theorem verifyAgent_read_failures (address : string) (e : Thrown) :
  (∀ s : State V2.Agent,
     answer s (Registry_balanceOf address) = Fail e →
     V2.verifyAgent address s
     = (Return (notVerified (errorMessage e)),
        after s (Registry_balanceOf address))) ∧
  (∀ (s : State V2.Agent) (balance : N),
     answer s (Registry_balanceOf address) = Ok balance → balance ≠ 0%N →
     answer (after s (Registry_balanceOf address)) Registry_totalRegistered
     = Fail e →
     V2.verifyAgent address s
     = (Return (notVerified (errorMessage e)),
        afterAll s [Registry_balanceOf address; Registry_totalRegistered])) ∧
  (∀ s : State V1.Agent,
     answer s (Registry_balanceOf address) = Fail e →
     V1.verifyAgent address s
     = (Return (notVerified (errorMessage e)),
        after s (Registry_balanceOf address))) ∧
  (∀ (s : State V1.Agent) (balance : N),
     answer s (Registry_balanceOf address) = Ok balance → balance ≠ 0%N →
     answer (after s (Registry_balanceOf address)) RegistryV1_totalAgents
     = Fail e →
     V1.verifyAgent address s
     = (Return (notVerified (errorMessage e)),
        afterAll s [Registry_balanceOf address; RegistryV1_totalAgents])).
Proof.
  split; [|split; [|split]].
  - intros s Hfail. unfold V2.verifyAgent, verifyAgent, try_catch, bind.
    by rewrite readContract_run, Hfail.
  - intros s balance Hbalance Hne Htotal. unfold V2.verifyAgent.
    rewrite (verifyAgent_nonzero _ _ _ _ _ _ Hbalance Hne).
    unfold findAgentByOwner, bind.
    by rewrite V2_getTotalRegistered_run, Htotal.
  - intros s Hfail. unfold V1.verifyAgent, verifyAgent, try_catch, bind.
    by rewrite readContract_run, Hfail.
  - intros s balance Hbalance Hne Htotal. unfold V1.verifyAgent.
    rewrite (verifyAgent_nonzero _ _ _ _ _ _ Hbalance Hne).
    unfold findAgentByOwner, bind.
    by rewrite V1_getTotalAgents_run, Htotal.
Qed.

(** With the endpoint down the count read fails. *)
Lemma verifyAgent_read_failures_witness :
  answer deadState (Registry_balanceOf addressX)
  = Fail (ErrorObj "network down") ∧
  fst (V2.verifyAgent addressX deadState)
  = Return (notVerified "network down").
Proof.
  assert (answer deadState (Registry_balanceOf addressX)
          = Fail (ErrorObj "network down")) as Hfail
    by (vm_compute; reflexivity).
  split; [exact Hfail|].
  by rewrite (proj1 (verifyAgent_read_failures addressX
                       (ErrorObj "network down")) deadState Hfail).
Defined.

(** X12.  Past a nonzero ownership count, when the total is [n]:
    - if the scan stops at candidate [k] (no candidate above it answers
      with the address, [k] does), the result of [verifyAgent] is decided
      by the one call [getAgent k]: positive, with the record and the
      trust level of the record, when a record comes back; the error
      ["Birth Certificate exists but agent data not found"] when none
      does;
    - if no candidate answers with the address, the result is that same
      error, after [n] probes: the count and the scan disagree. *)
Theorem verifyAgent_after_scan {Agent : Type}
    (agent_trustLevel : Agent → TrustLevel)
    (getAgent : Z → M Agent (option Agent)) (getTotalRegistered : M Agent Z)
    (address : string) (balance : N) (n : nat) (s s0 : State Agent) :
  answer s (Registry_balanceOf address) = Ok balance →
  balance ≠ 0%N →
  getTotalRegistered (after s (Registry_balanceOf address))
  = (Return (Z.of_nat n), s0) →
  (∀ k : nat, (1 ≤ k ≤ n)%nat →
     (∀ i : nat, (k < i ≤ n)%nat →
        ¬ ownedBy address
            (respond (client (this s0)) (log s0 ++ probes n i)
               (Registry_ownerOf (Z.of_nat i)))) →
     ownedBy address
       (respond (client (this s0)) (log s0 ++ probes n k)
          (Registry_ownerOf (Z.of_nat k))) →
     let run := getAgent (Z.of_nat k) (afterAll s0 (probes n (k - 1))) in
     (∀ a, fst run = Return (Some a) →
        verifyAgent agent_trustLevel getAgent getTotalRegistered address s
        = (Return {| verified := true; trustLevel := agent_trustLevel a;
                     agent := Some a; error := None |}, snd run)) ∧
     (fst run = Return None →
        verifyAgent agent_trustLevel getAgent getTotalRegistered address s
        = (Return (notVerified
                     "Birth Certificate exists but agent data not found"),
           snd run))) ∧
  ((∀ i : nat, (1 ≤ i ≤ n)%nat →
      ¬ ownedBy address
          (respond (client (this s0)) (log s0 ++ probes n i)
             (Registry_ownerOf (Z.of_nat i)))) →
   verifyAgent agent_trustLevel getAgent getTotalRegistered address s
   = (Return (notVerified
                "Birth Certificate exists but agent data not found"),
      afterAll s0 (probes n 0))).
Proof.
  intros Hbalance Hne Htotal.
  rewrite (verifyAgent_nonzero _ _ _ _ _ _ Hbalance Hne).
  unfold findAgentByOwner, bind. rewrite Htotal, Nat2Z.id.
  split.
  - intros k Hk Habove Hat. cbn zeta.
    rewrite (scanOwners_found getAgent address k n s0 Hk Habove Hat).
    destruct (getAgent _ _) as [o s']. cbn [fst snd].
    split; [by intros a ->|by intros ->].
  - intros Hnone. by rewrite (scanOwners_none getAgent address n s0 Hnone).
Qed.

(** Scenario A on the V2 client. *)
Lemma verifyAgent_after_scan_witness :
  fst (V2.verifyAgent addressX sampleState)
  = Return {| verified := true; trustLevel := Level0;
              agent := Some sampleAgent; error := None |}.
Proof.
  assert (V2.getTotalRegistered
            (after sampleState (Registry_balanceOf addressX))
          = (Return (Z.of_nat 3),
             afterAll sampleState
               [Registry_balanceOf addressX; Registry_totalRegistered]))
    as Htotal by (vm_compute; reflexivity).
  destruct (proj1 (verifyAgent_after_scan V2.trustLevel V2.getAgent
                     V2.getTotalRegistered addressX 1 3 sampleState _
                     eq_refl ltac:(discriminate) Htotal) 2%nat)
    as [Hfound _].
  - lia.
  - intros i Hi. assert (i = 3%nat) as -> by lia. vm_compute. tauto.
  - vm_compute; reflexivity.
  - unfold V2.verifyAgent.
    rewrite (Hfound sampleAgent); [reflexivity | vm_compute; reflexivity].
Defined.



(** ** The license loop when no read fails *)

Lemma to_nat_of_N (n : N) : Z.to_nat (Z.of_N n) = N.to_nat n.
Proof. lia. Qed.

Lemma V2_fetchLicenses_all tokenId
    (lics : list (string * string * N)) : ∀ i licenses (s : State V2.Agent),
  (∀ (j : nat) lic, lics !! j = Some lic →
     respond (client (this s)) (log s ++ licenseReads tokenId i j)
       (Registry_getLicense tokenId (i + Z.of_nat j)) = Ok lic) →
  V2.fetchLicenses tokenId (List.length lics) i licenses s
  = (Return (licenses ++ List.map toLicense lics),
     afterAll s (licenseReads tokenId i (List.length lics))).
Proof.
  induction lics as [|lic lics IH]; intros i licenses s Hok.
  - simpl. by rewrite app_nil_r.
  - assert (Hhead := Hok 0%nat lic eq_refl).
    simpl in Hhead. rewrite app_nil_r, Z.add_0_r in Hhead.
    change (V2.fetchLicenses tokenId (List.length (lic :: lics)) i licenses s)
      with (bind
              (try_catch
                 (let* lic := readContract (Registry_getLicense tokenId i) in
                  let '(lic0, lic1, lic2) := lic in
                  ret (Some {| V2.license_type := lic0;
                               V2.license_id := lic1;
                               V2.issuedAt := Z.of_N lic2 |}))
                 (λ _, ret None))
              (λ step,
                 match step with
                 | Some l =>
                     V2.fetchLicenses tokenId (List.length lics) (i + 1)%Z
                       (licenses ++ [l])
                 | None => ret licenses
                 end) s).
    unfold bind at 1. unfold try_catch, bind at 1. rewrite readContract_run.
    unfold answer. rewrite Hhead. destruct lic as [[lic0 lic1] lic2].
    cbn [fst snd ret].
    rewrite (IH (i + 1)%Z).
    + simpl. by rewrite <- app_assoc.
    + intros j lic' Hj. rewrite after_this, after_log, <- app_assoc.
      specialize (Hok (S j) lic' Hj). simpl in Hok.
      replace (i + 1 + Z.of_nat j)%Z with (i + Z.pos (Pos.of_succ_nat j))%Z
        by lia.
      exact Hok.
Qed.

(** X14.  In the V2 client, when [getAgent] has to assemble, the record
    read succeeds and every license read up to the count succeeds, the
    record carries all these licenses in registry order and the loop has
    read the indices 0, ..., count - 1 and none beyond.  The count is the
    one read from the registry, or 0 when that read failed: then no
    license is read at all and the list is empty. *)
Theorem getAgent_reads_count_licenses (tokenId : Z) (s : State V2.Agent)
    (agentData : string * string * string * N)
    (lics : list (string * string * N)) :
  let rpc := client (this s) in
  let l3 := log s ++ [Registry_getAgent tokenId; Registry_isVerified tokenId;
                      Registry_getLineage tokenId] in
  let l5 := log s ++ V2_reads tokenId in
  let count :=
    N.to_nat (orElse (respond rpc l3 (Registry_getLicenseCount tokenId)) 0%N) in
  lookupLive (V2.cacheKey tokenId) s ≫= asAgent = None →
  respond rpc (log s) (Registry_getAgent tokenId) = Ok agentData →
  List.length lics = count →
  (∀ (i : nat) lic, lics !! i = Some lic →
     respond rpc (l5 ++ licenseReads tokenId 0 i)
       (Registry_getLicense tokenId (Z.of_nat i)) = Ok lic) →
  ∃ a : V2.Agent,
    fst (V2.getAgent tokenId s) = Return (Some a) ∧
    V2.licenses a = List.map toLicense lics ∧
    log (snd (V2.getAgent tokenId s)) = l5 ++ licenseReads tokenId 0 count.
Proof.
  cbn zeta. intros Hmiss Hcore Hlen Hok.
  destruct (getCache_state (V2.cacheKey tokenId) s)
    as (Hclient & Httl & _ & Hlog & _).
  assert (∃ a s2,
            V2.getAgent tokenId s = (Return (Some a), s2) ∧
            V2.licenses a = List.map toLicense lics ∧
            log s2 = (log s ++ V2_reads tokenId)
                     ++ licenseReads tokenId 0 (List.length lics))
    as (a & s2 & Hrun & Hlics & Hlog2).
  { unfold V2.getAgent. unfold bind at 1. rewrite getCache_run, Hmiss.
    set (s1 := snd (getCache (V2.cacheKey tokenId) s)) in *.
    unfold try_catch. unfold bind at 1. rewrite V2_fetchAll_run.
    rewrite Hclient, Hlog, Hcore.
    destruct agentData as [[[name agentType] owner] birthBlock].
    rewrite <- !app_assoc. simpl app.
    unfold bind at 1. rewrite to_nat_of_N, <- Hlen.
    rewrite (V2_fetchLicenses_all tokenId lics).
    - unfold bind, setCache, ret. cbn [fst snd].
      eexists. eexists. split; [reflexivity|]. split; [done|].
      unfold set_cache. cbn [log].
      rewrite !afterAll_log, Hlog, <- app_assoc. reflexivity.
    - intros i lic Hi. rewrite afterAll_this, afterAll_log, Hclient, Hlog.
      rewrite Z.add_0_l. by apply Hok. }
  exists a. rewrite Hrun. cbn [fst snd].
  split; [done|]. split; [done|]. by rewrite Hlog2, Hlen.
Qed.

(** Once the second license of certificate 2 can be read, both are. *)
Lemma getAgent_reads_count_licenses_witness :
  ∃ a : V2.Agent,
    fst (V2.getAgent 2 fullState) = Return (Some a) ∧
    V2.licenses a = [sampleLicense; secondLicense] ∧
    log (snd (V2.getAgent 2 fullState))
    = V2_reads 2 ++ [Registry_getLicense 2 0; Registry_getLicense 2 1].
Proof.
  apply (getAgent_reads_count_licenses 2 fullState
           ("Suppi"%string, "guardian"%string, addressX, 100%N)
           [("MLO"%string, "154083"%string, 1700000000%N);
            ("Series 7"%string, "S7-1"%string, 1700000001%N)]).
  - vm_compute; reflexivity.
  - vm_compute; reflexivity.
  - vm_compute; reflexivity.
  - intros [|[|i]] lic Hi.
    + injection Hi as <-. vm_compute; reflexivity.
    + injection Hi as <-. vm_compute; reflexivity.
    + discriminate.
Defined.

(** ** [clearCache] *)

(** X15.  [clearCache] empties the cache, whatever it held, and changes
    nothing else; the next [getAgent], for any identifier, has to read the
    registry again, even within the lifetime of what was cached, and the
    next [getStats] has to read the total again. *)
Theorem clearCache_forces_reads (tokenId : Z) :
  (∀ s : State V2.Agent,
     let s1 := snd (clearCache s) in
     cache (this s1) = ∅ ∧
     client (this s1) = client (this s) ∧
     cacheTtl (this s1) = cacheTtl (this s) ∧
     now s1 = now s ∧ log s1 = log s ∧
     (∃ cs, log (snd (V2.getAgent tokenId s1))
            = log s ++ V2_reads tokenId ++ cs) ∧
     (∃ cs, log (snd (V2.getStats s1))
            = log s ++ Registry_totalRegistered :: cs)) ∧
  (∀ s : State V1.Agent,
     let s1 := snd (clearCache s) in
     cache (this s1) = ∅ ∧
     client (this s1) = client (this s) ∧
     cacheTtl (this s1) = cacheTtl (this s) ∧
     now s1 = now s ∧ log s1 = log s ∧
     log (snd (V1.getAgent tokenId s1)) = log s ++ V1_reads tokenId ∧
     (∃ cs, log (snd (V1.getStats s1))
            = log s ++ RegistryV1_totalAgents :: cs)).
Proof.
  split; intros s; cbn zeta.
  - do 5 (split; [done|]).
    assert (∀ key, lookupLive key (snd (clearCache s)) = None) as Hempty
      by (intros key; unfold lookupLive; simpl; by rewrite lookup_empty).
    split.
    + destruct (V2_getAgent_miss_state tokenId _ (Hempty (V2.cacheKey tokenId)))
        as (cs & Hlog & _). by exists cs.
    + unfold V2.getStats. rewrite getStats_miss_run by by rewrite Hempty.
      cbn zeta. rewrite V2_getTotalRegistered_run.
      destruct (answer _ Registry_totalRegistered); cbn [fst snd];
        eexists; unfold set_cache; cbn [log];
        rewrite !after_log;
        rewrite (proj1 (proj2 (proj2 (proj2 (getCache_state "stats" _)))));
        rewrite <- !app_assoc; reflexivity.
  - do 5 (split; [done|]).
    assert (∀ key, lookupLive key (snd (clearCache s)) = None) as Hempty
      by (intros key; unfold lookupLive; simpl; by rewrite lookup_empty).
    split.
    + by destruct (V1_getAgent_miss_state tokenId _
                     (Hempty (V1.cacheKey tokenId))) as (Hlog & _).
    + unfold V1.getStats. rewrite getStats_miss_run by by rewrite Hempty.
      cbn zeta. rewrite V1_getTotalAgents_run.
      destruct (answer _ RegistryV1_totalAgents); cbn [fst snd];
        eexists; unfold set_cache; cbn [log];
        rewrite !after_log;
        rewrite (proj1 (proj2 (proj2 (proj2 (getCache_state "stats" _)))));
        rewrite <- !app_assoc; reflexivity.
Qed.

(** ** Verification and registration agree *)

Lemma isRegistered_run {Agent : Type} address (s : State Agent) :
  isRegistered address s
  = (Return (thenOrElse (λ balance, (0 <? balance)%N)
               (answer s (Registry_balanceOf address)) false),
     after s (Registry_balanceOf address)).
Proof.
  unfold isRegistered, try_catch, bind. rewrite readContract_run.
  by destruct (answer s _).
Qed.

(** X16.  Asked in the same state, [isRegistered] says yes whenever
    [verifyAgent] gives a positive result: a positive verification is
    only reached past a successful, nonzero ownership count.  Conversely,
    where [isRegistered] says no, [verifyAgent] is negative. *)
Theorem verified_implies_registered {Agent : Type}
    (agent_trustLevel : Agent → TrustLevel)
    (getAgent : Z → M Agent (option Agent)) (getTotalRegistered : M Agent Z)
    (address : string) (s : State Agent) (r : VerificationResult Agent) :
  fst (verifyAgent agent_trustLevel getAgent getTotalRegistered address s)
  = Return r →
  (verified r = true → fst (isRegistered address s) = Return true) ∧
  (fst (isRegistered address s) = Return false → verified r = false).
Proof.
  rewrite isRegistered_run. unfold verifyAgent, try_catch. unfold bind at 1.
  rewrite readContract_run.
  destruct (answer s _) as [balance|e]; cbn [fst snd ret thenOrElse].
  - destruct (N.eqb_spec balance 0) as [->|Hne]; cbn [fst].
    + by intros [= <-].
    + intros _. assert ((0 <? balance)%N = true) as ->
        by (apply N.ltb_lt; lia).
      done.
  - by intros [= <-].
Qed.

Lemma verified_implies_registered_witness :
  fst (isRegistered addressX sampleState) = Return true.
Proof.
  apply (verified_implies_registered V2.trustLevel V2.getAgent
           V2.getTotalRegistered addressX sampleState
           {| verified := true; trustLevel := Level0;
              agent := Some sampleAgent; error := None |});
    [vm_compute; reflexivity | reflexivity].
Defined.

(** ** The standalone functions *)




(** ** The scan when the record is cached *)

(** X18.  The owner scan is never cached, the record it ends on may be:
    when the scan stops at candidate [k] and the cache holds a live record
    for [k], [findAgentByOwner] returns that record having made only the
    read of the total and the probes of [n], ..., [k]; none of the reads
    of an assembly is made. *)
Theorem findAgentByOwner_with_cached_record (address : string) (n k : nat) :
  (∀ (s : State V2.Agent) entry a,
     answer s Registry_totalRegistered = Ok (N.of_nat n) →
     let s0 := after s Registry_totalRegistered in
     let sk := afterAll s0 (probes n (k - 1)) in
     (1 ≤ k ≤ n)%nat →
     (∀ i : nat, (k < i ≤ n)%nat →
        ¬ ownedBy address
            (respond (client (this s)) (log s0 ++ probes n i)
               (Registry_ownerOf (Z.of_nat i)))) →
     ownedBy address
       (respond (client (this s)) (log s0 ++ probes n k)
          (Registry_ownerOf (Z.of_nat k))) →
     cache (this s) !! V2.cacheKey (Z.of_nat k) = Some entry →
     data entry = VAgent a →
     (now sk ≤ expiresAt entry)%Z →
     V2.findAgentByOwner address s = (Return (Some a), sk) ∧
     log sk = log s ++ Registry_totalRegistered :: probes n (k - 1) ∧
     this sk = this s) ∧
  (∀ (s : State V1.Agent) entry a,
     answer s RegistryV1_totalAgents = Ok (N.of_nat n) →
     let s0 := after s RegistryV1_totalAgents in
     let sk := afterAll s0 (probes n (k - 1)) in
     (1 ≤ k ≤ n)%nat →
     (∀ i : nat, (k < i ≤ n)%nat →
        ¬ ownedBy address
            (respond (client (this s)) (log s0 ++ probes n i)
               (Registry_ownerOf (Z.of_nat i)))) →
     ownedBy address
       (respond (client (this s)) (log s0 ++ probes n k)
          (Registry_ownerOf (Z.of_nat k))) →
     cache (this s) !! V1.cacheKey (Z.of_nat k) = Some entry →
     data entry = VAgent a →
     (now sk ≤ expiresAt entry)%Z →
     V1.findAgentByOwner address s = (Return (Some a), sk) ∧
     log sk = log s ++ RegistryV1_totalAgents :: probes n (k - 1) ∧
     this sk = this s).
Proof.
  split; intros s entry a Htotal; cbn zeta; intros Hk Habove Hat Hentry Hdata
    Hlive.
  - split; [|split].
    + unfold V2.findAgentByOwner, findAgentByOwner, bind.
      rewrite V2_getTotalRegistered_run, Htotal. cbn [fst snd].
      rewrite nat_N_Z, Nat2Z.id.
      rewrite (scanOwners_found V2.getAgent address k n _ Hk Habove Hat).
      apply V2_getAgent_hit. unfold lookupLive.
      rewrite afterAll_this, after_this, Hentry.
      destruct (Z.gtb_spec
                  (now (afterAll (after s Registry_totalRegistered)
                          (probes n (k - 1)))) (expiresAt entry));
        [lia | by rewrite Hdata].
    + by rewrite afterAll_log, after_log, <- app_assoc.
    + by rewrite afterAll_this.
  - split; [|split].
    + unfold V1.findAgentByOwner, findAgentByOwner, bind.
      rewrite V1_getTotalAgents_run, Htotal. cbn [fst snd].
      rewrite nat_N_Z, Nat2Z.id.
      rewrite (scanOwners_found V1.getAgent address k n _ Hk Habove Hat).
      apply V1_getAgent_hit. unfold lookupLive.
      rewrite afterAll_this, after_this, Hentry.
      destruct (Z.gtb_spec
                  (now (afterAll (after s RegistryV1_totalAgents)
                          (probes n (k - 1)))) (expiresAt entry));
        [lia | by rewrite Hdata].
    + by rewrite afterAll_log, after_log, <- app_assoc.
    + by rewrite afterAll_this.
Qed.

Lemma findAgentByOwner_with_cached_record_witness :
  V2.findAgentByOwner addressX warmState
  = (Return (Some sampleAgent),
     afterAll warmState
       [Registry_totalRegistered; Registry_ownerOf 3; Registry_ownerOf 2]) ∧
  log warmState
  = V2_reads 2 ++ [Registry_getLicense 2 0; Registry_getLicense 2 1].
Proof.
  split; [|vm_compute; reflexivity].
  destruct (proj1 (findAgentByOwner_with_cached_record addressX 3 2)
              warmState
              {| data := VAgent sampleAgent; expiresAt := 31140 |}
              sampleAgent) as (Hrun & _).
  - vm_compute; reflexivity.
  - lia.
  - intros i Hi. assert (i = 3%nat) as -> by lia. vm_compute. tauto.
  - vm_compute; reflexivity.
  - vm_compute; reflexivity.
  - reflexivity.
  - vm_compute; discriminate.
  - exact Hrun.
Defined.
